(** * Pair-label evaluation scripts: canonical keys, merge, sweep, curve, stratifier

    Shallow embedding of [scripts/analyze_results.py] and
    [scripts/evaluate_small_experiment.py].

    Conventions of the embedding.
    - A Python [str] is the list of its Unicode code points ([list N]);
      [<] on [str] is the lexicographic order on code points.
    - A gold label (the integers [1] and [0] written by the loaders) is a
      [bool]: [true] is label 1.
    - A score is an exact rational ([Q]); the scripts hold IEEE doubles.
      Comparisons of scores are the decidable comparisons of [Q], and a
      missing value (pandas NaN after a left join) is [None].
    - The pandas, numpy and scikit-learn calls are embedded by what they
      compute on the columns the scripts pass to them;
      [precision_recall_curve] is the one of scikit-learn 1.1 and later,
      which keeps every distinct score as a threshold. *)

From Stdlib Require Import Ascii String.
From Stdlib Require Import List NArith ZArith QArith Lia Lqa Bool Sorted.
From Stdlib Require Import Permutation Qround.
Import ListNotations.

Set Implicit Arguments.

(** ** Python strings *)

Module PyStr.

Definition str := list N.

(** Code points of a literal, for writing concrete inputs. *)
Definition lit (s : string) : str := map N_of_ascii (list_ascii_of_string s).

(** [str.isspace] on one character: the code points CPython's
    [_PyUnicode_IsWhitespace] accepts. *)
Definition isspace (c : N) : bool :=
  ((9 <=? c) && (c <=? 13) || (28 <=? c) && (c <=? 32)
   || (c =? 133) || (c =? 160) || (c =? 5760)
   || (8192 <=? c) && (c <=? 8202)
   || (c =? 8232) || (c =? 8233) || (c =? 8239) || (c =? 8287)
   || (c =? 12288))%N.

Fixpoint lstrip (s : str) : str :=
  match s with
  | [] => []
  | c :: s' => if isspace c then lstrip s' else s
  end.

Definition rstrip (s : str) : str := rev (lstrip (rev s)).

(** [s.strip()]: leading and trailing whitespace removed. *)
Definition strip (s : str) : str := rstrip (lstrip s).

(** [a < b] on [str]. *)
Fixpoint lt (a b : str) : bool :=
  match a, b with
  | _, [] => false
  | [], _ :: _ => true
  | x :: a', y :: b' =>
      if (x <? y)%N then true
      else if (y <? x)%N then false
      else lt a' b'
  end.

(** [sorted([p1, p2])]: the sort is stable and exchanges the two elements
    only when the second is strictly smaller. *)
Definition sorted2 (p1 p2 : str) : str * str :=
  if lt p2 p1 then (p2, p1) else (p1, p2).

(** The separator of the key, [|] (code point 124). *)
Definition bar : N := 124.

(** The f-string [f"{first}|{second}"]. *)
Definition fmt_key (first second : str) : str := first ++ bar :: second.

End PyStr.

Import PyStr.

(** A row with the two path columns, as [DataFrame.apply(..., axis=1)]
    hands it to the callback. *)
Record PathRow := mkPathRow { path_a : str; path_b : str }.

(** ** Tables *)

Open Scope Q_scope.

(** A row of the gold frame: the two paths and the label the loader wrote
    ([1] for the positive file, [0] for the negative file). *)
Record GoldPair := mkGold { g_paths : PathRow; g_label : bool }.

(** A row of the system frame: the two paths and the score. *)
Record ScoredPair := mkScored { s_paths : PathRow; s_score : Q }.

(** A row of [merged] once [score] has been filled: the gold row, its key and
    the joined score.  The columns [pred_high] and [pred_low], which the
    stratifier adds, are functions of [m_score] and are not stored. *)
Record MergedRecord := mkMerged
  { m_path_a : str; m_path_b : str; m_label : bool; m_key : str; m_score : Q }.

(** [load_gold] / [load_labeled_pairs]: positive rows then negative rows. *)
Definition concat_gold (pos neg : list PathRow) : list GoldPair :=
  map (fun r => mkGold r true) pos ++ map (fun r => mkGold r false) neg.

Module Pandas.

(** Equality of two keys, as the join compares them. *)
Fixpoint key_eqb (a b : str) : bool :=
  match a, b with
  | [], [] => true
  | x :: a', y :: b' => (x =? y)%N && key_eqb a' b'
  | _, _ => false
  end.

(** [df.drop_duplicates('key')] on the ([key], [score]) columns: a row is
    kept when no earlier row has its key ([keep='first']). *)
Fixpoint drop_dups (seen : list str) (rows : list (str * Q)) : list (str * Q) :=
  match rows with
  | [] => []
  | (k, s) :: rest =>
      if existsb (key_eqb k) seen then drop_dups seen rest
      else (k, s) :: drop_dups (k :: seen) rest
  end.

Definition drop_duplicates (rows : list (str * Q)) : list (str * Q) :=
  drop_dups [] rows.

(** The rows of [right] whose key is [k], in the order of [right]. *)
Definition matches (k : str) (right : list (str * Q)) : list (str * Q) :=
  filter (fun kr => key_eqb (fst kr) k) right.

(** [left.merge(right, on='key', how='left')]: the left rows in their order;
    a left row is repeated once per matching right row, and appears once
    with a missing score when nothing matches. *)
Definition merge_left (left : list (GoldPair * str)) (right : list (str * Q))
  : list (GoldPair * str * option Q) :=
  flat_map
    (fun l =>
       match matches (snd l) right with
       | [] => [(l, None)]
       | ms => map (fun kr => (l, Some (snd kr))) ms
       end)
    left.

(** [merged['score'].fillna(0.0)], giving the finished rows. *)
Definition fillna (rows : list (GoldPair * str * option Q)) : list MergedRecord :=
  map (fun '(g, k, s) =>
         mkMerged (path_a (g_paths g)) (path_b (g_paths g)) (g_label g) k
                  (match s with Some x => x | None => 0 end))
      rows.

(** Ascending stable sort of a score column. *)
Fixpoint insert_sorted (x : Q) (l : list Q) : list Q :=
  match l with
  | [] => [x]
  | y :: l' => if Qle_bool x y then x :: l else y :: insert_sorted x l'
  end.

Definition sort_values (l : list Q) : list Q := fold_right insert_sorted [] l.

(** [Series.quantile(0.5)] with the default linear interpolation: with [n]
    values the position is [(n-1)/2]; the result interpolates between the
    sorted values on either side of it. *)
Definition quantile_half (xs : list Q) : Q :=
  let a := sort_values xs in
  let n1 := (length a - 1)%nat in
  let lo := Nat.div n1 2 in
  let hi := (lo + Nat.modulo n1 2)%nat in
  let frac := inject_Z (Z.of_nat (Nat.modulo n1 2)) / 2 in
  nth lo a 0 + (nth hi a 0 - nth lo a 0) * frac.

End Pandas.

Module Numpy.

Definition Qltb (x y : Q) : bool := negb (Qle_bool y x).

Definition sum (l : list Q) : Q := fold_right Qplus 0 l.

(** [a.mean()]; on an empty array numpy gives NaN, here [None]. *)
Definition mean (l : list Q) : option Q :=
  match l with
  | [] => None
  | _ => Some (sum l / inject_Z (Z.of_nat (length l)))
  end.

(** [a.min()]; raises on an empty array, here [None]. *)
Definition min (l : list Q) : option Q :=
  match l with
  | [] => None
  | x :: l' => Some (fold_left (fun m y => if Qltb y m then y else m) l' x)
  end.

(** [a.argmax()]: the index of the first occurrence of the maximum; raises
    on an empty array, here [None]. *)
Fixpoint argmax_from (l : list Q) (i best_i : nat) (best : Q) : nat :=
  match l with
  | [] => best_i
  | x :: l' =>
      if Qltb best x then argmax_from l' (S i) i x
      else argmax_from l' (S i) best_i best
  end.

Definition argmax (l : list Q) : option nat :=
  match l with
  | [] => None
  | x :: l' => Some (argmax_from l' 1 0 x)
  end.

(** [a[:-1]]. *)
Definition but_last (l : list Q) : list Q := removelast l.

(** Element-wise binary operation on two arrays of one length. *)
Fixpoint zip_with (f : Q -> Q -> Q) (a b : list Q) : list Q :=
  match a, b with
  | x :: a', y :: b' => f x y :: zip_with f a' b'
  | _, _ => []
  end.

End Numpy.

(** Python's [max(a, b)] and [min(a, b)]: the first argument wins ties. *)
Definition py_max (a b : Q) : Q := if Numpy.Qltb a b then b else a.
Definition py_min (a b : Q) : Q := if Numpy.Qltb b a then b else a.

(** ** scikit-learn metrics, binary case *)

Module Sklearn.

Definition b2z (b : bool) : Z := if b then 1%Z else 0%Z.

(** Number of samples whose true label is [t] and predicted label is [p]. *)
Definition count_cell (t p : bool) (y_true y_pred : list bool) : Z :=
  Z.of_nat
    (List.length
       (filter (fun tp => Bool.eqb (fst tp) t && Bool.eqb (snd tp) p)
               (combine y_true y_pred))).

Definition tp_sum := count_cell true true.
Definition fp_sum := count_cell false true.
Definition fn_sum := count_cell true false.

(** [_prf_divide(num, den, ..., zero_division=0)]. *)
Definition prf_divide (num den : Z) : Q :=
  if (den =? 0)%Z then 0 else inject_Z num / inject_Z den.

(** [precision_score(y_true, y_pred, zero_division=0)], positive class 1. *)
Definition precision_score (y_true y_pred : list bool) : Q :=
  prf_divide (tp_sum y_true y_pred) (tp_sum y_true y_pred + fp_sum y_true y_pred).

(** [recall_score(y_true, y_pred, zero_division=0)]. *)
Definition recall_score (y_true y_pred : list bool) : Q :=
  prf_divide (tp_sum y_true y_pred) (tp_sum y_true y_pred + fn_sum y_true y_pred).

(** [f1_score(y_true, y_pred, zero_division=0)]: with beta = 1 the library
    divides [2 * tp] by [true_sum + pred_sum]. *)
Definition f1_score (y_true y_pred : list bool) : Q :=
  prf_divide (2 * tp_sum y_true y_pred)
             ((tp_sum y_true y_pred + fn_sum y_true y_pred)
              + (tp_sum y_true y_pred + fp_sum y_true y_pred)).

(** [np.argsort(y_score, kind="mergesort")[::-1]] applied to both columns:
    a stable ascending sort on the score, reversed. *)
Fixpoint insert_by_score (x : bool * Q) (l : list (bool * Q)) : list (bool * Q) :=
  match l with
  | [] => [x]
  | y :: l' =>
      if Qle_bool (snd x) (snd y) then x :: l else y :: insert_by_score x l'
  end.

Definition sort_desc (l : list (bool * Q)) : list (bool * Q) :=
  rev (fold_right insert_by_score [] l).

(** [_binary_clf_curve] on the sorted samples.  Position [i] is kept when
    the score changes after it ([np.diff] is non-zero) or it is the last
    one; there [tps] is the cumulative sum of the labels up to [i] and
    [fps = 1 + i - tps].  The result lists ([fps], [tps], threshold). *)
Fixpoint clf_walk (i tp : Z) (l : list (bool * Q)) : list (Z * Z * Q) :=
  match l with
  | [] => []
  | (y, s) :: rest =>
      let tp' := (tp + b2z y)%Z in
      let here := ((1 + i - tp')%Z, tp', s) in
      match rest with
      | [] => [here]
      | (_, s') :: _ =>
          if Qeq_bool s s' then clf_walk (i + 1) tp' rest
          else here :: clf_walk (i + 1) tp' rest
      end
  end.

Definition binary_clf_curve (y_true : list bool) (y_score : list Q)
  : list (Z * Z * Q) :=
  clf_walk 0 0 (sort_desc (combine y_true y_score)).

Record Curve := mkCurve
  { precision : list Q; recall : list Q; thresholds : list Q }.

Definition fps_of (p : Z * Z * Q) : Z := fst (fst p).
Definition tps_of (p : Z * Z * Q) : Z := snd (fst p).
Definition thr_of (p : Z * Z * Q) : Q := snd p.

(** [precision_recall_curve(y_true, y_score)]: precision is [tps / (tps+fps)]
    (zero where the sum is zero), recall is [tps / tps[-1]] (all ones when
    no sample is positive); the three arrays are reversed, and the final
    point (precision 1, recall 0) is appended.  An empty input raises,
    here [None]. *)
Definition precision_recall_curve (y_true : list bool) (y_score : list Q)
  : option Curve :=
  match combine y_true y_score with
  | [] => None
  | _ =>
      let pts := binary_clf_curve y_true y_score in
      let prec :=
        map (fun p => prf_divide (tps_of p) (tps_of p + fps_of p)) pts in
      let tps_last := last (map tps_of pts) 0%Z in
      let rec :=
        if (tps_last =? 0)%Z then map (fun _ => 1) pts
        else map (fun p => inject_Z (tps_of p) / inject_Z tps_last) pts in
      Some (mkCurve (rev prec ++ [1]) (rev rec ++ [0]) (rev (map thr_of pts)))
  end.

End Sklearn.

(** ** analyze_results.py *)

Module AnalyzeResults.

(** [make_key(row)]. *)
Definition make_key (row : PathRow) : str :=
  let p1 := strip (path_a row) in
  let p2 := strip (path_b row) in
  let '(first, second) := sorted2 p1 p2 in
  fmt_key first second.

(** The two [apply(make_key)] calls, [pd.merge(..., how='left')] and
    [fillna(0.0)]. *)
Definition merge (gold : list GoldPair) (system : list ScoredPair)
  : list MergedRecord :=
  let gold_df := map (fun g => (g, make_key (g_paths g))) gold in
  let system_df := map (fun s => (make_key (s_paths s), s_score s)) system in
  Pandas.fillna (Pandas.merge_left gold_df system_df).

(** One entry of [f1_scores]. *)
Definition f1_entry (p r : Q) : Q := 2 * (p * r) / (p + r + 1e-10).

Record OperatingPoint := mkBest
  { curve : Sklearn.Curve;
    f1_scores : list Q;
    best_idx : nat;
    best_f1 : Q;
    best_thresh : Q }.

(** From [precision_recall_curve] to [best_thresh]; [None] where the script
    raises. *)
Definition best_point (merged : list MergedRecord) : option OperatingPoint :=
  let y_true := map m_label merged in
  let y_scores := map m_score merged in
  match Sklearn.precision_recall_curve y_true y_scores with
  | None => None
  | Some c =>
      let f1s :=
        Numpy.zip_with f1_entry (Numpy.but_last (Sklearn.precision c))
                       (Numpy.but_last (Sklearn.recall c)) in
      match Numpy.argmax f1s with
      | None => None
      | Some i =>
          Some (mkBest c f1s i (nth i f1s 0)
                       (if (i <? List.length (Sklearn.thresholds c))%nat
                        then nth i (Sklearn.thresholds c) 0 else 0.5))
      end
  end.

End AnalyzeResults.

(** ** evaluate_small_experiment.py *)

Module EvaluateSmall.

(** [make_key(path_a, path_b)]. *)
Definition make_key (path_a path_b : str) : str :=
  let '(first, second) := sorted2 (strip path_a) (strip path_b) in
  fmt_key first second.

(** The lambda applied to every gold and system row. *)
Definition row_key (r : PathRow) : str := make_key (path_a r) (path_b r).

(** The merge: system keys de-duplicated, left join on the key, missing
    scores filled with [0.0]. *)
Definition merge (gold : list GoldPair) (system : list ScoredPair)
  : list MergedRecord :=
  let gold_df := map (fun g => (g, row_key (g_paths g))) gold in
  let system_df := map (fun s => (row_key (s_paths s), s_score s)) system in
  Pandas.fillna (Pandas.merge_left gold_df (Pandas.drop_duplicates system_df)).

(** The fixed thresholds of the table. *)
Definition thresholds : list Q := [0.0001; 0.001; 0.01; 0.05; 0.1].

(** [(y_scores >= t).astype(int)]. *)
Definition y_pred (merged : list MergedRecord) (t : Q) : list bool :=
  map (fun r => Qle_bool t (m_score r)) merged.

Record TableRow := mkRow { row_t : Q; row_p : Q; row_r : Q; row_f1 : Q }.

(** One iteration of the loop over the thresholds. *)
Definition sweep_row (merged : list MergedRecord) (t : Q) : TableRow :=
  let y_true := map m_label merged in
  let pred := y_pred merged t in
  mkRow t (Sklearn.precision_score y_true pred)
        (Sklearn.recall_score y_true pred)
        (Sklearn.f1_score y_true pred).

Definition sweep (merged : list MergedRecord) (ts : list Q) : list TableRow :=
  map (sweep_row merged) ts.


(** [prec, rec, thresh = precision_recall_curve(y_true, y_scores)]. *)
Definition pr_curve (merged : list MergedRecord) : option Sklearn.Curve :=
  Sklearn.precision_recall_curve (map m_label merged) (map m_score merged).

(** The high and low cut-offs of the error analysis: the medians of the
    positive and of the negative scores (constants when a class is empty),
    recomputed from the mean and the minimum of all scores when the first
    is not above the second.  [None] where the script raises. *)
Definition adaptive_thresholds (merged : list MergedRecord) : option (Q * Q) :=
  let y_scores := map m_score merged in
  let pos_scores := map m_score (filter m_label merged) in
  let neg_scores := map m_score (filter (fun r => negb (m_label r)) merged) in
  let high_thresh :=
    match pos_scores with [] => 0.01 | _ => Pandas.quantile_half pos_scores end in
  let low_thresh :=
    match neg_scores with [] => 0.001 | _ => Pandas.quantile_half neg_scores end in
  if Qle_bool high_thresh low_thresh then
    match Numpy.mean y_scores, Numpy.min y_scores with
    | Some mu, Some mn =>
        Some (py_max 0.01 (mu + 1e-6), py_min 0.01 (py_max 0 mn))
    | _, _ => None
    end
  else Some (high_thresh, low_thresh).

Record Buckets := mkBuckets
  { tp : list MergedRecord; fp : list MergedRecord;
    tn : list MergedRecord; fn : list MergedRecord }.

(** [extra['score'].replace(0.0, 1e-6)] on one row. *)
Definition nominal_score (r : MergedRecord) : MergedRecord :=
  mkMerged (m_path_a r) (m_path_b r) (m_label r) (m_key r)
           (if Qeq_bool (m_score r) 0 then 1e-6 else m_score r).

(** The false-positive bucket with its padding. *)
Definition fp_bucket (merged : list MergedRecord) : list MergedRecord :=
  let fp := filter (fun r => negb (m_label r) && Numpy.Qltb 0 (m_score r)) merged in
  if (List.length fp <? 5)%nat then
    let gold_neg := filter (fun r => negb (m_label r)) merged in
    let fp_keys := map m_key fp in
    let extra :=
      firstn (5 - List.length fp)
             (filter (fun r => negb (existsb (Pandas.key_eqb (m_key r)) fp_keys))
                     gold_neg) in
    firstn 5 (fp ++ map nominal_score extra)
  else fp.

(** The four buckets, before [take5]. *)
Definition stratify (merged : list MergedRecord) : option Buckets :=
  match adaptive_thresholds merged with
  | None => None
  | Some (high_thresh, low_thresh) =>
      let pred_high r := Qle_bool high_thresh (m_score r) in
      let pred_low r := Qle_bool (m_score r) low_thresh in
      Some (mkBuckets
              (filter (fun r => m_label r && pred_high r) merged)
              (fp_bucket merged)
              (filter (fun r => negb (m_label r) && pred_low r) merged)
              (filter (fun r => m_label r && pred_low r) merged))
  end.

End EvaluateSmall.

(** ** Statements used below *)

(** Two unordered pairs are the same. *)
Definition same_pair (a b c d : str) : Prop :=
  (a = c /\ b = d) \/ (a = d /\ b = c).

(** Different unordered pairs of stripped paths have different keys. *)
Definition key_separates (a b c d : str) : Prop :=
  ~ same_pair (strip a) (strip b) (strip c) (strip d) ->
  EvaluateSmall.make_key a b <> EvaluateSmall.make_key c d.

(** A string contains the separator. *)
Definition has_bar (s : str) : Prop := In bar s.

(** Every character of [w] is whitespace. *)
Definition all_space (w : str) : Prop := forallb isspace w = true.

(** The score the join of [evaluate_small_experiment.py] gives a gold row:
    that of the first system row with the gold row's key, else zero. *)
Definition first_score (system : list ScoredPair) (k : str) : Q :=
  match find (fun s => Pandas.key_eqb (EvaluateSmall.row_key (s_paths s)) k) system with
  | Some s => s_score s
  | None => 0
  end.

(** The record that join gives a gold row. *)
Definition merged_of (system : list ScoredPair) (g : GoldPair) : MergedRecord :=
  mkMerged (path_a (g_paths g)) (path_b (g_paths g)) (g_label g)
           (EvaluateSmall.row_key (g_paths g))
           (first_score system (EvaluateSmall.row_key (g_paths g))).

(** No record belongs to both lists. *)
Definition disjoint (l1 l2 : list MergedRecord) : Prop :=
  forall r, In r l1 -> In r l2 -> False.

(** The four buckets are pairwise disjoint. *)
Definition pairwise_disjoint (b : EvaluateSmall.Buckets) : Prop :=
  disjoint (EvaluateSmall.tp b) (EvaluateSmall.fp b) /\
  disjoint (EvaluateSmall.tp b) (EvaluateSmall.tn b) /\
  disjoint (EvaluateSmall.tp b) (EvaluateSmall.fn b) /\
  disjoint (EvaluateSmall.fp b) (EvaluateSmall.tn b) /\
  disjoint (EvaluateSmall.fp b) (EvaluateSmall.fn b) /\
  disjoint (EvaluateSmall.tn b) (EvaluateSmall.fn b).

(** [f1_scores] of [b] holds the F1 of every point of its curve but the
    final one, one entry per threshold. *)
Definition f1_of_curve (b : AnalyzeResults.OperatingPoint) : Prop :=
  AnalyzeResults.f1_scores b
  = Numpy.zip_with AnalyzeResults.f1_entry
      (Numpy.but_last (Sklearn.precision (AnalyzeResults.curve b)))
      (Numpy.but_last (Sklearn.recall (AnalyzeResults.curve b))) /\
  List.length (AnalyzeResults.f1_scores b)
  = List.length (Sklearn.thresholds (AnalyzeResults.curve b)).

(** The point [b] is a point of its curve and has the maximal entry of
    [f1_scores]. *)
Definition f1_is_max (b : AnalyzeResults.OperatingPoint) : Prop :=
  (AnalyzeResults.best_idx b < List.length (AnalyzeResults.f1_scores b))%nat /\
  AnalyzeResults.best_f1 b
  = nth (AnalyzeResults.best_idx b) (AnalyzeResults.f1_scores b) 0 /\
  AnalyzeResults.best_thresh b
  = nth (AnalyzeResults.best_idx b)
        (Sklearn.thresholds (AnalyzeResults.curve b)) 0 /\
  forall i, (i < List.length (AnalyzeResults.f1_scores b))%nat ->
            nth i (AnalyzeResults.f1_scores b) 0 <= AnalyzeResults.best_f1 b.

(** Among the points whose F1 equals the best one, [b] has the largest
    threshold. *)
Definition largest_on_ties (b : AnalyzeResults.OperatingPoint) : Prop :=
  forall i, (i < List.length (AnalyzeResults.f1_scores b))%nat ->
            nth i (AnalyzeResults.f1_scores b) 0 == AnalyzeResults.best_f1 b ->
            nth i (Sklearn.thresholds (AnalyzeResults.curve b)) 0
            <= AnalyzeResults.best_thresh b.

(** Among the points whose F1 equals the best one, [b] has the smallest
    threshold, and no other one has it. *)
Definition smallest_on_ties (b : AnalyzeResults.OperatingPoint) : Prop :=
  forall i, (i < List.length (AnalyzeResults.f1_scores b))%nat ->
            nth i (AnalyzeResults.f1_scores b) 0 == AnalyzeResults.best_f1 b ->
            i <> AnalyzeResults.best_idx b ->
            AnalyzeResults.best_thresh b
            < nth i (Sklearn.thresholds (AnalyzeResults.curve b)) 0.

(** A point the script selects has the maximal F1 and, among the points
    of that F1, the largest threshold. *)
Definition best_max_largest (merged : list MergedRecord) : Prop :=
  forall b, AnalyzeResults.best_point merged = Some b ->
            f1_is_max b /\ largest_on_ties b.

(** The script selects a point; it has the maximal F1 and, among the
    points of that F1, the smallest threshold. *)
Definition best_max_smallest (merged : list MergedRecord) : Prop :=
  exists b, AnalyzeResults.best_point merged = Some b /\
            Sklearn.precision_recall_curve (map m_label merged) (map m_score merged)
            = Some (AnalyzeResults.curve b) /\
            f1_of_curve b /\ f1_is_max b /\ smallest_on_ties b.

(** The buckets of a stratification are pairwise disjoint. *)
Definition buckets_disjoint (merged : list MergedRecord) : Prop :=
  forall b, EvaluateSmall.stratify merged = Some b -> pairwise_disjoint b.

(** The buckets are separated by label, and the two buckets of label 1 are
    disjoint. *)
Definition buckets_split_by_label (b : EvaluateSmall.Buckets) : Prop :=
  (forall r, In r (EvaluateSmall.tp b) -> m_label r = true) /\
  (forall r, In r (EvaluateSmall.fn b) -> m_label r = true) /\
  (forall r, In r (EvaluateSmall.fp b) -> m_label r = false) /\
  (forall r, In r (EvaluateSmall.tn b) -> m_label r = false) /\
  disjoint (EvaluateSmall.tp b) (EvaluateSmall.fn b) /\
  disjoint (EvaluateSmall.tp b) (EvaluateSmall.fp b) /\
  disjoint (EvaluateSmall.tp b) (EvaluateSmall.tn b) /\
  disjoint (EvaluateSmall.fp b) (EvaluateSmall.fn b) /\
  disjoint (EvaluateSmall.tn b) (EvaluateSmall.fn b).

(** The stratifier returns buckets, and they are separated by label. *)
Definition stratify_splits_by_label (merged : list MergedRecord) : Prop :=
  exists b, EvaluateSmall.stratify merged = Some b /\ buckets_split_by_label b.

(** True positives, false positives and false negatives of the prediction
    [score >= t], counted on the records. *)
Definition n_tp (merged : list MergedRecord) (t : Q) : Z :=
  Z.of_nat (List.length
              (filter (fun r => m_label r && Qle_bool t (m_score r)) merged)).

Definition n_fp (merged : list MergedRecord) (t : Q) : Z :=
  Z.of_nat (List.length
              (filter (fun r => negb (m_label r) && Qle_bool t (m_score r)) merged)).

Definition n_fn (merged : list MergedRecord) (t : Q) : Z :=
  Z.of_nat (List.length
              (filter (fun r => m_label r && negb (Qle_bool t (m_score r))) merged)).

(** The two columns handed to the metrics, as samples (label, score). *)
Definition samples (merged : list MergedRecord) : list (bool * Q) :=
  combine (map m_label merged) (map m_score merged).

(** Positive, and negative, samples of score at least [t]. *)
Definition s_tp (l : list (bool * Q)) (t : Q) : Z :=
  Z.of_nat (List.length (filter (fun x => fst x && Qle_bool t (snd x)) l)).

Definition s_fp (l : list (bool * Q)) (t : Q) : Z :=
  Z.of_nat (List.length (filter (fun x => negb (fst x) && Qle_bool t (snd x)) l)).

(** A point of [_binary_clf_curve] holds the counts at its threshold. *)
Definition point_counts (l : list (bool * Q)) (p : Z * Z * Q) : Prop :=
  Sklearn.tps_of p = s_tp l (Sklearn.thr_of p) /\
  Sklearn.fps_of p = s_fp l (Sklearn.thr_of p).

(** Samples in non-decreasing, and in non-increasing, order of score. *)
Definition asc_score (l : list (bool * Q)) : Prop :=
  StronglySorted (fun x y => snd x <= snd y) l.

Definition desc_score (l : list (bool * Q)) : Prop :=
  StronglySorted (fun x y => snd y <= snd x) l.

(** What the row of threshold [t] must hold: precision and recall are the
    ratios of the counts, zero when the denominator is zero, and F1 is zero
    when both are. *)
Definition row_conventions (merged : list MergedRecord) (t : Q)
           (row : EvaluateSmall.TableRow) : Prop :=
  EvaluateSmall.row_t row = t /\
  Forall2 (fun r p => p = true <-> t <= m_score r)
          merged (EvaluateSmall.y_pred merged t) /\
  ((n_tp merged t + n_fp merged t = 0)%Z -> EvaluateSmall.row_p row = 0) /\
  ((n_tp merged t + n_fp merged t <> 0)%Z ->
   EvaluateSmall.row_p row
   = inject_Z (n_tp merged t) / inject_Z (n_tp merged t + n_fp merged t)) /\
  ((n_tp merged t + n_fn merged t = 0)%Z -> EvaluateSmall.row_r row = 0) /\
  ((n_tp merged t + n_fn merged t <> 0)%Z ->
   EvaluateSmall.row_r row
   = inject_Z (n_tp merged t) / inject_Z (n_tp merged t + n_fn merged t)) /\
  (EvaluateSmall.row_p row == 0 -> EvaluateSmall.row_r row == 0 ->
   EvaluateSmall.row_f1 row == 0).

(** The sweep returns one such row per threshold, in order. *)
Definition sweep_conventions (merged : list MergedRecord) (ts : list Q) : Prop :=
  List.length (EvaluateSmall.sweep merged ts) = List.length ts /\
  forall i t, nth_error ts i = Some t ->
    exists row, nth_error (EvaluateSmall.sweep merged ts) i = Some row /\
                row_conventions merged t row.

(** The recall of the sweep at [t1] is at least the recall at [t2]. *)
Definition sweep_recall_ge (merged : list MergedRecord) (t1 t2 : Q) : Prop :=
  EvaluateSmall.row_r (EvaluateSmall.sweep_row merged t2)
  <= EvaluateSmall.row_r (EvaluateSmall.sweep_row merged t1).

(** Along the curve the threshold grows with the index and the recall does
    not. *)
Definition curve_recall_antitone (merged : list MergedRecord) : Prop :=
  forall c i j,
    EvaluateSmall.pr_curve merged = Some c ->
    (i < j)%nat -> (j < List.length (Sklearn.thresholds c))%nat ->
    nth i (Sklearn.thresholds c) 0 < nth j (Sklearn.thresholds c) 0 /\
    nth j (Sklearn.recall c) 0 <= nth i (Sklearn.recall c) 0.

(** ** Worked inputs *)

Definition row (a b : string) : PathRow := mkPathRow (lit a) (lit b).

Definition rec_of (a b : string) (l : bool) (s : Q) : MergedRecord :=
  mkMerged (lit a) (lit b) l (EvaluateSmall.make_key (lit a) (lit b)) s.

(** One positive and one negative gold pair; a system output that scores
    the pair {a, b} twice, once in each column order. *)
Definition dup_gold : list GoldPair :=
  concat_gold [row "a" "b"] [row "c" "d"].

Definition dup_system : list ScoredPair :=
  [ mkScored (row "a" "b") 0.9; mkScored (row "b" "a") 0.1 ].

(** A negative pair whose score, 0.1, is positive and is the median of the
    negative scores. *)
Definition overlap_records : list MergedRecord :=
  [ rec_of "a" "b" true 0.9; rec_of "c" "d" false 0.1 ].

(** Both medians are 0.02, so the cut-offs are recomputed. *)
Definition flat_records : list MergedRecord :=
  [ rec_of "a" "b" true 0.02; rec_of "a" "c" false 0.02 ].

(** One positive and one negative gold pair, each scored once with its
    paths exchanged. *)
Definition swapped_gold : list GoldPair :=
  concat_gold [row "a" "b"] [row "c" "d"].

Definition swapped_system : list ScoredPair :=
  [ mkScored (row "b" "a") 0.9; mkScored (row "d" "c") 0.1 ].

(** Two thresholds, 0.5 and 0.9, with the same F1. *)
Definition tie_records : list MergedRecord :=
  [ rec_of "a" "b" true 0.9; rec_of "c" "d" true 0.5;
    rec_of "e" "f" false 0.5; rec_of "g" "h" false 0.5 ].

(** ** evaluate_small_experiment.py: the report tables *)

Module EvaluateReport.

(** [take5(df)]: an empty frame when [df] is empty, else [df.head(5)] or
    [df.head(n)] with [n = min(5, len(df))]. *)
Definition take5 (df : list MergedRecord) : list MergedRecord :=
  let n := Nat.min 5 (List.length df) in
  if (n =? 0)%nat then []
  else if (5 <=? List.length df)%nat then firstn 5 df else firstn n df.

(** [np.linspace(0, stop, num, dtype=int)] for [num > 1]: the values
    [i * step] with [step = stop / (num - 1)], the last one set to [stop],
    each rounded down. *)
Definition linspace_int (stop : Z) (num : nat) : list Z :=
  let step := inject_Z stop / inject_Z (Z.of_nat num - 1) in
  let y := map (fun i => inject_Z (Z.of_nat i) * step) (seq 0 num) in
  map Qfloor (removelast y ++ [inject_Z stop]).

(** The sample positions of the curve table, for [n = len(thresh)]. *)
Definition indices (n : nat) : list Z :=
  if (1 <? n)%nat then linspace_int (Z.of_nat n - 1) (Nat.min 20 n)
  else if (n =? 1)%nat then [0%Z] else [].

(** [pr_table]: the (precision, recall, threshold) triples at the sample
    positions that are below [len(thresh)]. *)
Definition pr_table (c : Sklearn.Curve) : list (Q * Q * Q) :=
  let n := List.length (Sklearn.thresholds c) in
  map (fun i => (nth (Z.to_nat i) (Sklearn.precision c) 0,
                 nth (Z.to_nat i) (Sklearn.recall c) 0,
                 nth (Z.to_nat i) (Sklearn.thresholds c) 0))
      (filter (fun i => (i <? Z.of_nat n)%Z) (indices n)).

End EvaluateReport.

(** ** evaluate_small_experiment.py: the whitespace fallback of the loader *)

Module EvaluateLoad.

(** What [float(s)] returns when it does not raise: a number or NaN. *)
Inductive PyFloat := Finite (q : Q) | NaN.

(** [s.split()]: the maximal runs of non-whitespace characters.  [cur]
    holds the run being read, reversed. *)
Fixpoint split_from (cur : str) (s : str) : list str :=
  match s with
  | [] => match cur with [] => [] | _ => [rev cur] end
  | c :: s' =>
      if isspace c then
        match cur with
        | [] => split_from [] s'
        | _ => rev cur :: split_from [] s'
        end
      else split_from (c :: cur) s'
  end.

Definition split (s : str) : list str := split_from [] s.

(** [sep.join(l)]. *)
Fixpoint join (sep : str) (l : list str) : str :=
  match l with
  | [] => []
  | x :: l' => match l' with [] => x | _ => x ++ sep ++ join sep l' end
  end.

Definition space : str := [32%N].

Section Fallback.

(** [float] on a string: [None] where it raises [ValueError]. *)
Variable float : str -> option PyFloat.

(** The body of the loop over the lines: a row, or nothing when the line
    has fewer than three fields or its last field is not a number. *)
Definition parse_line (line : str) : option (str * str * PyFloat) :=
  let parts := split (strip line) in
  if (3 <=? List.length parts)%nat then
    match float (last parts []) with
    | Some score =>
        Some (hd [] parts, join space (removelast (tl parts)), score)
    | None => None
    end
  else None.

Fixpoint parse_lines (lines : list str) : list (str * str * PyFloat) :=
  match lines with
  | [] => []
  | line :: rest =>
      match parse_line line with
      | Some r => r :: parse_lines rest
      | None => parse_lines rest
      end
  end.

(** The fallback branch of [load_system_output] with the final column
    clean-up: paths stripped, NaN scores replaced by [0.0]; [None] when no
    line could be parsed. *)
Definition load_fallback (lines : list str) : option (list ScoredPair) :=
  match parse_lines lines with
  | [] => None
  | rows =>
      Some (map (fun '(a, b, sc) =>
                   mkScored (mkPathRow (strip a) (strip b))
                            (match sc with Finite q => q | NaN => 0 end))
                rows)
  end.

End Fallback.

End EvaluateLoad.

(** ** Statements about the keys and the merge *)

(** [t] neither begins nor ends with whitespace. *)
Definition trimmed (t : str) : Prop :=
  (forall c u, t = c :: u -> isspace c = false) /\
  (forall u c, t = u ++ [c] -> isspace c = false).

(** The keys of the system rows, in order. *)
Definition system_keys (system : list ScoredPair) : list str :=
  map (fun s => EvaluateSmall.row_key (s_paths s)) system.

(** A system row, and a gold row, with the two path columns exchanged. *)
Definition swap_scored (s : ScoredPair) : ScoredPair :=
  mkScored (mkPathRow (path_b (s_paths s)) (path_a (s_paths s))) (s_score s).

Definition swap_gold (g : GoldPair) : GoldPair :=
  mkGold (mkPathRow (path_b (g_paths g)) (path_a (g_paths g))) (g_label g).

(** The record [r] carries the paths, the label and the key of the gold
    row [g]. *)
Definition from_gold (g : GoldPair) (r : MergedRecord) : Prop :=
  m_path_a r = path_a (g_paths g) /\ m_path_b r = path_b (g_paths g) /\
  m_label r = g_label g /\ m_key r = EvaluateSmall.row_key (g_paths g).

(** The score of [r] is that of a system row with its key, or it is zero
    and no system row has its key. *)
Definition score_from_system (system : list ScoredPair) (r : MergedRecord) : Prop :=
  (exists s, In s system /\ EvaluateSmall.row_key (s_paths s) = m_key r /\
             m_score r = s_score s) \/
  (m_score r = 0 /\
   forall s, In s system -> EvaluateSmall.row_key (s_paths s) <> m_key r).

(** What is left of a record when the path columns are dropped. *)
Definition joined_columns (r : MergedRecord) : bool * str * Q :=
  (m_label r, m_key r, m_score r).

(** ** Statements about the sweep *)


(** Number of records, and of positive records. *)
Definition n_all (merged : list MergedRecord) : Z :=
  Z.of_nat (List.length merged).

Definition n_pos (merged : list MergedRecord) : Z :=
  Z.of_nat (List.length (filter m_label merged)).

(** ** Statements about the curve *)

(** The arrays of a curve over [merged]: one threshold per distinct score,
    one more precision and recall than thresholds, the final point
    (precision 1, recall 0) and full recall at the first point. *)
Definition curve_shape (merged : list MergedRecord) (c : Sklearn.Curve) : Prop :=
  let n := List.length (Sklearn.thresholds c) in
  (1 <= n <= List.length merged)%nat /\
  List.length (Sklearn.precision c) = S n /\
  List.length (Sklearn.recall c) = S n /\
  nth n (Sklearn.precision c) 0 = 1 /\
  nth n (Sklearn.recall c) 0 = 0 /\
  nth 0 (Sklearn.recall c) 0 == 1.

(** The thresholds are the scores of the records, each once. *)
Definition thresholds_are_scores (merged : list MergedRecord) (c : Sklearn.Curve) : Prop :=
  (forall t, In t (Sklearn.thresholds c) ->
             exists r, In r merged /\ m_score r = t) /\
  (forall r, In r merged ->
             exists t, In t (Sklearn.thresholds c) /\ t == m_score r) /\
  StronglySorted Qlt (Sklearn.thresholds c).

(** The point of index [i] of the curve is the row the sweep computes at
    the threshold of index [i]. *)
Definition curve_point_is_sweep_row (merged : list MergedRecord)
           (c : Sklearn.Curve) (i : nat) : Prop :=
  let row := EvaluateSmall.sweep_row merged (nth i (Sklearn.thresholds c) 0) in
  nth i (Sklearn.precision c) 0 = EvaluateSmall.row_p row /\
  nth i (Sklearn.recall c) 0 = EvaluateSmall.row_r row.

(** Three negative records, two of them with the same score. *)
Definition negatives_only : list MergedRecord :=
  [ rec_of "a" "b" false 0.3; rec_of "c" "d" false 0.1; rec_of "e" "f" false 0.3 ].

(** ** Statements about the report tables *)

(** The point of index [i] of a curve. *)
Definition curve_point (c : Sklearn.Curve) (i : nat) : Q * Q * Q :=
  (nth i (Sklearn.precision c) 0, nth i (Sklearn.recall c) 0,
   nth i (Sklearn.thresholds c) 0).

(** The position of the [k]-th row of the curve table when the curve has
    [n] thresholds: [k * (n - 1)] divided by the number of rows less one,
    rounded down. *)
Definition sample_index (n k : nat) : nat :=
  Nat.div (k * (n - 1)) (Nat.min 20 n - 1).

(** ** Statements about the stratifier *)

(** The cut-offs before the separation test: the medians, or the constants
    when a class has no record. *)
Definition median_cutoffs (merged : list MergedRecord) : Q * Q :=
  let pos_scores := map m_score (filter m_label merged) in
  let neg_scores := map m_score (filter (fun r => negb (m_label r)) merged) in
  (match pos_scores with [] => 0.01 | _ => Pandas.quantile_half pos_scores end,
   match neg_scores with [] => 0.001 | _ => Pandas.quantile_half neg_scores end).

(** The negative records, and those of them with a positive score. *)
Definition gold_neg (merged : list MergedRecord) : list MergedRecord :=
  filter (fun r => negb (m_label r)) merged.

Definition genuine_fp (merged : list MergedRecord) : list MergedRecord :=
  filter (fun r => negb (m_label r) && Numpy.Qltb 0 (m_score r)) merged.

(** A row of the false-positive bucket is a negative record with a
    positive score, or the padding made of a negative record whose score
    is not positive. *)
Definition fp_row_origin (merged : list MergedRecord) (x : MergedRecord) : Prop :=
  In x (genuine_fp merged) \/
  ((List.length (genuine_fp merged) < 5)%nat /\
   exists r, In r merged /\ m_label r = false /\ m_score r <= 0 /\
             x = EvaluateSmall.nominal_score r).

(** Five negative records with distinct keys, two of them scored. *)
Definition five_negatives : list MergedRecord :=
  [ rec_of "a" "b" false 0.3; rec_of "c" "d" false 0; rec_of "e" "f" false 0.2;
    rec_of "g" "h" false 0; rec_of "i" "j" false 0; rec_of "k" "l" true 0.7 ].

(** ** Statements about the loader's fallback *)

(** [s] has no whitespace character. *)
Definition no_space (s : str) : Prop := forall c, In c s -> isspace c = false.

(** A row as the fallback leaves it: a first path that is one
    whitespace-free field and a second path that is not empty and neither
    begins nor ends with whitespace. *)
Definition fallback_row_ok (s : ScoredPair) : Prop :=
  path_a (s_paths s) <> [] /\ no_space (path_a (s_paths s)) /\
  path_b (s_paths s) <> [] /\ trimmed (path_b (s_paths s)).

(** A stand-in for [float] that reads every field as 0.5. *)
Definition float_half (s : str) : option EvaluateLoad.PyFloat :=
  Some (EvaluateLoad.Finite 0.5).

(** * Properties *)

(** ** Strings and keys *)

Section StrFacts.

Lemma lt_irrefl (a : str) : lt a a = false.
Proof.
  induction a as [|x a IH]; simpl; [reflexivity|].
  now rewrite N.ltb_irrefl.
Qed.

Lemma lt_asym (a b : str) : lt a b = true -> lt b a = false.
Proof.
  revert b; induction a as [|x a IH]; intros [|y b]; simpl; try easy.
  destruct (N.ltb_spec x y) as [Hxy|Hxy], (N.ltb_spec y x) as [Hyx|Hyx];
    try easy; try lia.
  apply IH.
Qed.

Lemma lt_total (a b : str) : lt a b = false -> lt b a = false -> a = b.
Proof.
  revert b; induction a as [|x a IH]; intros [|y b]; simpl; try easy.
  destruct (N.ltb_spec x y) as [Hxy|Hxy], (N.ltb_spec y x) as [Hyx|Hyx];
    try easy.
  intros H1 H2. assert (x = y) by lia. subst y. f_equal. now apply IH.
Qed.

Lemma sorted2_comm (a b : str) : sorted2 a b = sorted2 b a.
Proof.
  unfold sorted2.
  destruct (lt b a) eqn:Hba, (lt a b) eqn:Hab; try reflexivity.
  - apply lt_asym in Hba. congruence.
  - now rewrite (lt_total _ _ Hab Hba).
Qed.

Lemma sorted2_cases (a b : str) :
  sorted2 a b = (a, b) \/ sorted2 a b = (b, a).
Proof. unfold sorted2. destruct (lt b a); auto. Qed.

Lemma lstrip_space (w : str) : all_space w -> lstrip w = [].
Proof.
  unfold all_space. induction w as [|c w IH]; simpl; [reflexivity|].
  destruct (isspace c); simpl; [exact IH | discriminate].
Qed.

Lemma lstrip_app_space (w s : str) : all_space w -> lstrip (w ++ s) = lstrip s.
Proof.
  unfold all_space. induction w as [|c w IH]; simpl; [reflexivity|].
  destruct (isspace c); simpl; [exact IH | discriminate].
Qed.

Lemma all_space_rev (w : str) : all_space w -> all_space (rev w).
Proof.
  unfold all_space. rewrite !forallb_forall.
  intros H c Hc. apply H. now apply in_rev.
Qed.

Lemma rstrip_app_space (s w : str) : all_space w -> rstrip (s ++ w) = rstrip s.
Proof.
  intros Hw. unfold rstrip. rewrite rev_app_distr.
  now rewrite lstrip_app_space by (now apply all_space_rev).
Qed.

Lemma strip_app_space_r (s w : str) :
  all_space w -> rstrip (lstrip (s ++ w)) = rstrip (lstrip s).
Proof.
  intros Hw. induction s as [|c s IH]; simpl.
  - now rewrite lstrip_space.
  - destruct (isspace c); [exact IH|].
    change (c :: s ++ w) with ((c :: s) ++ w).
    now rewrite rstrip_app_space.
Qed.

Lemma strip_padded (w1 s w2 : str) :
  all_space w1 -> all_space w2 -> strip (w1 ++ s ++ w2) = strip s.
Proof.
  intros H1 H2. unfold strip.
  rewrite lstrip_app_space by assumption.
  now apply strip_app_space_r.
Qed.

Lemma fmt_key_inj (f1 s1 f2 s2 : str) :
  ~ has_bar f1 -> ~ has_bar f2 ->
  fmt_key f1 s1 = fmt_key f2 s2 -> f1 = f2 /\ s1 = s2.
Proof.
  unfold fmt_key, has_bar.
  revert f2; induction f1 as [|x f1 IH]; intros [|y f2] H1 H2 E; simpl in *.
  - now injection E.
  - injection E as E1 E2. subst y. exfalso. apply H2. now left.
  - injection E as E1 E2. subst x. exfalso. apply H1. now left.
  - injection E as E1 E2. subst y.
    destruct (IH f2) as [-> ->]; auto.
Qed.

End StrFacts.

(** The key of [evaluate_small_experiment.py] is the formatted sorted pair
    of the stripped paths. *)
Lemma make_key_unfold (a b : str) :
  EvaluateSmall.make_key a b
  = fmt_key (fst (sorted2 (strip a) (strip b))) (snd (sorted2 (strip a) (strip b))).
Proof. unfold EvaluateSmall.make_key. now destruct (sorted2 _ _). Qed.

(** C10. The inline [make_key] of [analyze_results.py], on a row whose
    columns are [a] and [b], returns the string that [make_key(a, b)] of
    [evaluate_small_experiment.py] returns. *)
Theorem C10_make_key_scripts_agree (a b : str) :
  AnalyzeResults.make_key (mkPathRow a b) = EvaluateSmall.make_key a b.
Proof. reflexivity. Qed.

(** C5. The key is symmetric in its two arguments, and whitespace added
    before or after either argument leaves it unchanged; in both scripts. *)
Theorem C5_make_key_symmetric_and_stripped (a b w1 w2 w3 w4 : str) :
  all_space w1 -> all_space w2 -> all_space w3 -> all_space w4 ->
  EvaluateSmall.make_key a b = EvaluateSmall.make_key b a /\
  EvaluateSmall.make_key (w1 ++ a ++ w2) (w3 ++ b ++ w4)
  = EvaluateSmall.make_key a b /\
  AnalyzeResults.make_key (mkPathRow a b)
  = AnalyzeResults.make_key (mkPathRow b a) /\
  AnalyzeResults.make_key (mkPathRow (w1 ++ a ++ w2) (w3 ++ b ++ w4))
  = AnalyzeResults.make_key (mkPathRow a b).
Proof.
  intros H1 H2 H3 H4.
  assert (S : EvaluateSmall.make_key a b = EvaluateSmall.make_key b a).
  { rewrite !make_key_unfold. now rewrite (sorted2_comm (strip a)). }
  assert (P : EvaluateSmall.make_key (w1 ++ a ++ w2) (w3 ++ b ++ w4)
              = EvaluateSmall.make_key a b).
  { rewrite !make_key_unfold. now rewrite !strip_padded. }
  repeat split; assumption.
Qed.

Lemma C5_witness :
  EvaluateSmall.make_key (lit "x") (lit "y") = EvaluateSmall.make_key (lit "y") (lit "x") /\
  EvaluateSmall.make_key (lit "  " ++ lit "x" ++ [9%N; 160%N]) ([10%N] ++ lit "y" ++ [])
  = EvaluateSmall.make_key (lit "x") (lit "y") /\
  AnalyzeResults.make_key (mkPathRow (lit "x") (lit "y"))
  = AnalyzeResults.make_key (mkPathRow (lit "y") (lit "x")) /\
  AnalyzeResults.make_key
    (mkPathRow (lit "  " ++ lit "x" ++ [9%N; 160%N]) ([10%N] ++ lit "y" ++ []))
  = AnalyzeResults.make_key (mkPathRow (lit "x") (lit "y")).
Proof.
  apply (@C5_make_key_symmetric_and_stripped
           (lit "x") (lit "y") (lit "  ") [9%N; 160%N] [10%N] []);
    reflexivity.
Defined.

(** C4, as stated, fails: the pairs {"a|b", "c"} and {"a", "b|c"} differ
    and both have the key "a|b|c". *)
Lemma C4_counterexample :
  ~ key_separates (lit "a|b") (lit "c") (lit "a") (lit "b|c").
Proof.
  intros H. apply H; [|reflexivity].
  intros [[E _]|[E _]]; vm_compute in E; discriminate E.
Qed.

(** C4, amended. When none of the four stripped paths contains the
    separator [|], two different unordered pairs have different keys; in
    both scripts. *)
Theorem C4_make_key_injective_without_bar (a b c d : str) :
  ~ has_bar (strip a) -> ~ has_bar (strip b) ->
  ~ has_bar (strip c) -> ~ has_bar (strip d) ->
  ~ same_pair (strip a) (strip b) (strip c) (strip d) ->
  EvaluateSmall.make_key a b <> EvaluateSmall.make_key c d /\
  AnalyzeResults.make_key (mkPathRow a b) <> AnalyzeResults.make_key (mkPathRow c d).
Proof.
  intros Ha Hb Hc Hd Hne.
  assert (K : EvaluateSmall.make_key a b <> EvaluateSmall.make_key c d).
  { intros E. apply Hne. rewrite !make_key_unfold in E.
    destruct (sorted2_cases (strip a) (strip b)) as [E1|E1],
             (sorted2_cases (strip c) (strip d)) as [E2|E2];
      rewrite E1, E2 in E; simpl in E;
      apply fmt_key_inj in E; try assumption;
      destruct E as [Ef Es]; unfold same_pair; auto. }
  split; exact K.
Qed.

Lemma C4_witness :
  EvaluateSmall.make_key (lit "a") (lit "b") <> EvaluateSmall.make_key (lit "a") (lit "c") /\
  AnalyzeResults.make_key (mkPathRow (lit "a") (lit "b"))
  <> AnalyzeResults.make_key (mkPathRow (lit "a") (lit "c")).
Proof.
  apply (@C4_make_key_injective_without_bar (lit "a") (lit "b") (lit "a") (lit "c"));
    try (intros H; vm_compute in H; intuition discriminate).
Defined.

(** ** The merge *)

Section MergeFacts.

Lemma key_eqb_eq (a b : str) : Pandas.key_eqb a b = true <-> a = b.
Proof.
  revert b; induction a as [|x a IH]; intros [|y b]; simpl; try easy.
  rewrite andb_true_iff, N.eqb_eq, IH.
  split; [intros [-> ->]; reflexivity | intros E; now injection E].
Qed.

Lemma key_eqb_refl (a : str) : Pandas.key_eqb a a = true.
Proof. now apply key_eqb_eq. Qed.

Lemma key_eqb_sym (a b : str) : Pandas.key_eqb a b = Pandas.key_eqb b a.
Proof.
  destruct (Pandas.key_eqb a b) eqn:E1, (Pandas.key_eqb b a) eqn:E2; try reflexivity.
  - apply key_eqb_eq in E1. subst. now rewrite key_eqb_refl in E2.
  - apply key_eqb_eq in E2. subst. now rewrite key_eqb_refl in E1.
Qed.

Lemma matches_cons (k : str) (kr : str * Q) (rows : list (str * Q)) :
  Pandas.matches k (kr :: rows)
  = if Pandas.key_eqb (fst kr) k then kr :: Pandas.matches k rows
    else Pandas.matches k rows.
Proof. reflexivity. Qed.

(** After [drop_duplicates] at most one row carries a given key: the first
    one of the input that is not shadowed by [seen]. *)
Lemma matches_drop_dups (k : str) (rows : list (str * Q)) :
  forall seen,
    Pandas.matches k (Pandas.drop_dups seen rows)
    = if existsb (Pandas.key_eqb k) seen then []
      else match find (fun kr => Pandas.key_eqb (fst kr) k) rows with
           | Some kr => [kr]
           | None => []
           end.
Proof.
  induction rows as [|[k' s] rows IH]; intros seen; simpl.
  - now destruct (existsb _ seen).
  - destruct (existsb (Pandas.key_eqb k') seen) eqn:Hk'.
    + rewrite IH. destruct (existsb (Pandas.key_eqb k) seen) eqn:Hk; [reflexivity|].
      destruct (Pandas.key_eqb k' k) eqn:E; [|reflexivity].
      apply key_eqb_eq in E. congruence.
    + rewrite matches_cons, IH. simpl. rewrite (key_eqb_sym k k').
      destruct (Pandas.key_eqb k' k) eqn:E; simpl.
      * apply key_eqb_eq in E. subst k'. now rewrite Hk'.
      * reflexivity.
Qed.

Lemma find_map_scored (k : str) (system : list ScoredPair) :
  match find (fun kr => Pandas.key_eqb (fst kr) k)
             (map (fun s => (EvaluateSmall.row_key (s_paths s), s_score s)) system) with
  | Some kr => snd kr
  | None => 0
  end = first_score system k.
Proof.
  unfold first_score. induction system as [|s system IH]; simpl; [reflexivity|].
  destruct (Pandas.key_eqb _ k); [reflexivity | exact IH].
Qed.

Lemma merge_left_cons (l : GoldPair * str) left right :
  Pandas.merge_left (l :: left) right
  = match Pandas.matches (snd l) right with
    | [] => [(l, None)]
    | ms => map (fun kr => (l, Some (snd kr))) ms
    end ++ Pandas.merge_left left right.
Proof. reflexivity. Qed.

Lemma fillna_app a b : Pandas.fillna (a ++ b) = Pandas.fillna a ++ Pandas.fillna b.
Proof. apply map_app. Qed.

(** The merge of [evaluate_small_experiment.py] row by row. *)
Lemma evaluate_merge_rows (gold : list GoldPair) (system : list ScoredPair) :
  EvaluateSmall.merge gold system = map (merged_of system) gold.
Proof.
  unfold EvaluateSmall.merge.
  induction gold as [|g gold IH]; [reflexivity|].
  cbn [map]. rewrite merge_left_cons, fillna_app, IH. clear IH.
  unfold Pandas.drop_duplicates. rewrite matches_drop_dups.
  cbn [existsb snd].
  pose proof (find_map_scored (EvaluateSmall.row_key (g_paths g)) system) as F.
  unfold merged_of. rewrite <- F.
  destruct (find _ _) as [kr|]; reflexivity.
Qed.

(** In [evaluate_small_experiment.py] the merge has one record per gold
    row, with the gold row's label. *)
Lemma evaluate_merge_complete (gold : list GoldPair) (system : list ScoredPair) :
  List.length (EvaluateSmall.merge gold system) = List.length gold /\
  map m_label (EvaluateSmall.merge gold system) = map g_label gold.
Proof.
  rewrite evaluate_merge_rows. split.
  - apply length_map.
  - rewrite map_map. reflexivity.
Qed.

(** In [evaluate_small_experiment.py] the score of the record of the
    [i]-th gold row is the score of the first system row with its key, and
    zero when no system row has its key. *)
Lemma evaluate_merge_first_score (gold : list GoldPair) (system : list ScoredPair)
      (i : nat) (g : GoldPair) :
  nth_error gold i = Some g ->
  exists r, nth_error (EvaluateSmall.merge gold system) i = Some r /\
            m_score r = first_score system (EvaluateSmall.row_key (g_paths g)) /\
            ((forall s, In s system ->
                        EvaluateSmall.row_key (s_paths s)
                        <> EvaluateSmall.row_key (g_paths g)) ->
             m_score r = 0).
Proof.
  intros Hg. rewrite evaluate_merge_rows.
  exists (merged_of system g). split; [now apply map_nth_error|].
  split; [reflexivity|].
  intros Hno. simpl. unfold first_score.
  destruct (find _ system) as [s|] eqn:F; [|reflexivity].
  apply find_some in F. destruct F as [Hin E].
  apply key_eqb_eq in E. now apply Hno in Hin.
Qed.

End MergeFacts.

(** C2 (fails for [analyze_results.py]).  With the gold pairs
    [dup_gold] and the system rows [dup_system], where the pair {a, b} is
    scored twice, the merge of [analyze_results.py] has three records for
    two gold pairs; the merge of [evaluate_small_experiment.py] has two. *)
Theorem C2_analyze_merge_repeats_gold_row :
  List.length dup_gold = 2%nat /\
  List.length (AnalyzeResults.merge dup_gold dup_system) = 3%nat /\
  List.length (EvaluateSmall.merge dup_gold dup_system) = 2%nat.
Proof. repeat split; vm_compute; reflexivity. Qed.

(** C3 (fails for [analyze_results.py]).  On the same input the merge of
    [analyze_results.py] gives the gold pair {a, b} two records, with the
    scores 0.9 and 0.1: the second is not the score of the first system
    row with that key.  [evaluate_small_experiment.py] gives it the one
    score 0.9. *)
Theorem C3_analyze_merge_keeps_later_score :
  map (fun r => (m_label r, m_score r)) (AnalyzeResults.merge dup_gold dup_system)
  = [(true, 0.9); (true, 0.1); (false, 0)] /\
  map (fun r => (m_label r, m_score r)) (EvaluateSmall.merge dup_gold dup_system)
  = [(true, 0.9); (false, 0)].
Proof. split; vm_compute; reflexivity. Qed.

(** ** The threshold sweep *)

Section SweepFacts.

Lemma count_cell_map (A : Type) (f g : A -> bool) (t p : bool) (l : list A) :
  Sklearn.count_cell t p (map f l) (map g l)
  = Z.of_nat (List.length
                (filter (fun r => Bool.eqb (f r) t && Bool.eqb (g r) p) l)).
Proof.
  unfold Sklearn.count_cell. f_equal.
  induction l as [|x l IH]; simpl; [reflexivity|].
  destruct (Bool.eqb (f x) t && Bool.eqb (g x) p); simpl; now rewrite IH.
Qed.

Lemma filter_length_ext (A : Type) (f g : A -> bool) (l : list A) :
  (forall x, f x = g x) ->
  List.length (filter f l) = List.length (filter g l).
Proof. intros E. now rewrite (filter_ext f g E). Qed.

Lemma filter_length_mono (A : Type) (f g : A -> bool) (l : list A) :
  (forall x, f x = true -> g x = true) ->
  (List.length (filter f l) <= List.length (filter g l))%nat.
Proof.
  intros I. induction l as [|x l IH]; simpl; [lia|].
  destruct (f x) eqn:F.
  - rewrite (I x F). simpl. lia.
  - destruct (g x); simpl; lia.
Qed.

Variable merged : list MergedRecord.
Variable t : Q.

Let y_true := map m_label merged.
Let pred := EvaluateSmall.y_pred merged t.

Lemma tp_sum_records : Sklearn.tp_sum y_true pred = n_tp merged t.
Proof.
  unfold Sklearn.tp_sum, y_true, pred, EvaluateSmall.y_pred, n_tp.
  rewrite count_cell_map. f_equal. apply filter_length_ext.
  intros r. now destruct (m_label r), (Qle_bool t (m_score r)).
Qed.

Lemma fp_sum_records : Sklearn.fp_sum y_true pred = n_fp merged t.
Proof.
  unfold Sklearn.fp_sum, y_true, pred, EvaluateSmall.y_pred, n_fp.
  rewrite count_cell_map. f_equal. apply filter_length_ext.
  intros r. now destruct (m_label r), (Qle_bool t (m_score r)).
Qed.

Lemma fn_sum_records : Sklearn.fn_sum y_true pred = n_fn merged t.
Proof.
  unfold Sklearn.fn_sum, y_true, pred, EvaluateSmall.y_pred, n_fn.
  rewrite count_cell_map. f_equal. apply filter_length_ext.
  intros r. now destruct (m_label r), (Qle_bool t (m_score r)).
Qed.

End SweepFacts.

(** The actual positives do not depend on the threshold. *)
Lemma tp_fn_positives (merged : list MergedRecord) (t : Q) :
  (n_tp merged t + n_fn merged t)%Z
  = Z.of_nat (List.length (filter m_label merged)).
Proof.
  unfold n_tp, n_fn. rewrite <- Nat2Z.inj_add. f_equal.
  induction merged as [|r l IH]; [reflexivity|].
  cbn [filter]. destruct (m_label r), (Qle_bool t (m_score r));
    cbn [andb negb List.length]; lia.
Qed.

Lemma n_tp_antitone (merged : list MergedRecord) (t1 t2 : Q) :
  t1 <= t2 -> (n_tp merged t2 <= n_tp merged t1)%Z.
Proof.
  intros H. unfold n_tp. apply inj_le. apply filter_length_mono.
  intros r. rewrite !andb_true_iff, !Qle_bool_iff.
  intros [L T]. split; [assumption|]. now apply Qle_trans with t2.
Qed.

Lemma prf_divide_zero_num (den : Z) : Sklearn.prf_divide 0 den == 0.
Proof.
  unfold Sklearn.prf_divide. destruct (den =? 0)%Z; [reflexivity|].
  unfold Qdiv. now rewrite Qmult_0_l.
Qed.

Lemma prf_divide_is_zero (num den : Z) :
  Sklearn.prf_divide num den == 0 -> den = 0%Z \/ num = 0%Z.
Proof.
  unfold Sklearn.prf_divide. destruct (Z.eqb_spec den 0) as [E|E]; [now left|].
  intros H. right. apply inject_Z_injective.
  assert (D : ~ inject_Z den == 0).
  { intros D. apply E. now apply inject_Z_injective. }
  rewrite <- (@Qmult_div_r (inject_Z num) (inject_Z den) D), H.
  now rewrite Qmult_0_r.
Qed.

Lemma prf_divide_mono (a b den : Z) :
  (a <= b)%Z -> (0 <= den)%Z ->
  Sklearn.prf_divide a den <= Sklearn.prf_divide b den.
Proof.
  intros Hab Hd. unfold Sklearn.prf_divide.
  destruct (den =? 0)%Z; [apply Qle_refl|].
  unfold Qdiv. apply Qmult_le_compat_r.
  - now rewrite <- Zle_Qle.
  - apply Qinv_le_0_compat. change 0 with (inject_Z 0). now rewrite <- Zle_Qle.
Qed.

Lemma y_pred_meaning (merged : list MergedRecord) (t : Q) :
  Forall2 (fun r p => p = true <-> t <= m_score r)
          merged (EvaluateSmall.y_pred merged t).
Proof.
  unfold EvaluateSmall.y_pred.
  induction merged as [|r l IH]; simpl; constructor; [|exact IH].
  apply Qle_bool_iff.
Qed.

(** What one row of the table holds, in terms of the counts on the
    records. *)
Lemma sweep_row_counts (merged : list MergedRecord) (t : Q) :
  let row := EvaluateSmall.sweep_row merged t in
  EvaluateSmall.row_t row = t /\
  EvaluateSmall.row_p row
  = Sklearn.prf_divide (n_tp merged t) (n_tp merged t + n_fp merged t) /\
  EvaluateSmall.row_r row
  = Sklearn.prf_divide (n_tp merged t) (n_tp merged t + n_fn merged t) /\
  EvaluateSmall.row_f1 row
  = Sklearn.prf_divide (2 * n_tp merged t)
      ((n_tp merged t + n_fn merged t) + (n_tp merged t + n_fp merged t)).
Proof.
  unfold EvaluateSmall.sweep_row; simpl.
  unfold Sklearn.precision_score, Sklearn.recall_score, Sklearn.f1_score.
  rewrite tp_sum_records, fp_sum_records, fn_sum_records. auto.
Qed.

Lemma n_counts_nonneg (merged : list MergedRecord) (t : Q) :
  (0 <= n_tp merged t /\ 0 <= n_fp merged t /\ 0 <= n_fn merged t)%Z.
Proof. unfold n_tp, n_fp, n_fn. lia. Qed.

(** C6. On a non-empty sequence of records the sweep returns one row per
    threshold.  In the row of threshold [t] a record is predicted positive
    exactly when its score is at least [t]; precision is TP/(TP+FP), and 0
    when TP+FP = 0; recall is TP/(TP+FN), and 0 when TP+FN = 0; F1 is 0
    when precision and recall are both 0. *)
Theorem C6_sweep_total_zero_conventions
        (merged : list MergedRecord) (ts : list Q) :
  merged <> [] -> sweep_conventions merged ts.
Proof.
  intros _. unfold sweep_conventions, row_conventions.
  split; [apply length_map|].
  intros i t Ht. exists (EvaluateSmall.sweep_row merged t).
  split; [now apply map_nth_error|].
  destruct (sweep_row_counts merged t) as (Et & Ep & Er & Ef).
  split; [exact Et|]. split; [apply y_pred_meaning|].
  rewrite Ep, Er, Ef. unfold Sklearn.prf_divide at 1 2 3 4.
  repeat split.
  - intros ->. reflexivity.
  - intros H. now apply Z.eqb_neq in H as ->.
  - intros ->. reflexivity.
  - intros H. now apply Z.eqb_neq in H as ->.
  - intros Hp Hr.
    pose proof (n_counts_nonneg merged t) as (Htp & Hfp & Hfn).
    assert (Z : n_tp merged t = 0%Z).
    { apply prf_divide_is_zero in Hp. lia. }
    rewrite Z. apply prf_divide_zero_num.
Qed.

Lemma C6_witness :
  overlap_records <> [] /\
  sweep_conventions overlap_records EvaluateSmall.thresholds.
Proof.
  split; [discriminate|].
  apply (@C6_sweep_total_zero_conventions overlap_records EvaluateSmall.thresholds).
  discriminate.
Defined.

(** ** Sorted lists *)

Section SortedFacts.

Variables (A B : Type).

Lemma ssorted_snoc (R : A -> A -> Prop) (l : list A) (x : A) :
  StronglySorted R l -> Forall (fun y => R y x) l ->
  StronglySorted R (l ++ [x]).
Proof.
  induction 1 as [|y l Hs IH Hy]; intros Hx; simpl.
  - repeat constructor.
  - inversion Hx; subst. constructor; [now apply IH|].
    apply Forall_app; split; [assumption | now repeat constructor].
Qed.

Lemma ssorted_rev (R : A -> A -> Prop) (l : list A) :
  StronglySorted R l -> StronglySorted (fun x y => R y x) (rev l).
Proof.
  induction 1 as [|y l Hs IH Hy]; simpl; [constructor|].
  apply ssorted_snoc; [exact IH|].
  apply Forall_forall. intros z Hz. apply in_rev in Hz.
  rewrite Forall_forall in Hy. now apply Hy.
Qed.

Lemma ssorted_map (R : A -> A -> Prop) (R' : B -> B -> Prop) (f : A -> B)
      (l : list A) :
  (forall x y, In x l -> In y l -> R x y -> R' (f x) (f y)) ->
  StronglySorted R l -> StronglySorted R' (map f l).
Proof.
  intros HR Hs. induction Hs as [|y l Hs IH Hy]; simpl; constructor.
  - apply IH. intros x z Hx Hz. apply HR; now right.
  - apply Forall_forall. intros z Hz. apply in_map_iff in Hz.
    destruct Hz as (w & <- & Hw). rewrite Forall_forall in Hy.
    apply HR; [now left | now right | now apply Hy].
Qed.

Lemma ssorted_nth (R : A -> A -> Prop) (l : list A) (d : A) :
  StronglySorted R l ->
  forall i j, (i < j)%nat -> (j < List.length l)%nat -> R (nth i l d) (nth j l d).
Proof.
  induction 1 as [|y l Hs IH Hy]; intros i j Hij Hj; simpl in Hj; [lia|].
  destruct j as [|j]; [lia|]. destruct i as [|i]; simpl.
  - rewrite Forall_forall in Hy. apply Hy. apply nth_In. lia.
  - apply IH; lia.
Qed.

End SortedFacts.

(** ** The precision-recall curve *)

Section CurveFacts.

Lemma insert_by_score_in (x y : bool * Q) (l : list (bool * Q)) :
  In y (Sklearn.insert_by_score x l) -> y = x \/ In y l.
Proof.
  induction l as [|z l IH]; simpl.
  - intros [<-|[]]. now left.
  - destruct (Qle_bool (snd x) (snd z)); simpl.
    + intros [<-|H]; auto.
    + intros [<-|H]; auto. destruct (IH H); auto.
Qed.

Lemma insert_by_score_asc (x : bool * Q) (l : list (bool * Q)) :
  asc_score l -> asc_score (Sklearn.insert_by_score x l).
Proof.
  unfold asc_score. induction 1 as [|z l Hs IH Hz]; simpl.
  - repeat constructor.
  - destruct (Qle_bool (snd x) (snd z)) eqn:E.
    + apply Qle_bool_iff in E. constructor; [now constructor|].
      constructor; [assumption|].
      rewrite Forall_forall in *. intros w Hw.
      apply Qle_trans with (snd z); auto.
    + assert (L : snd z <= snd x).
      { apply Qlt_le_weak, Qnot_le_lt. intros C.
        apply Qle_bool_iff in C. congruence. }
      constructor; [exact IH|].
      rewrite Forall_forall in *. intros w Hw.
      apply insert_by_score_in in Hw. destruct Hw as [->|Hw]; auto.
Qed.

Lemma sort_desc_sorted (l : list (bool * Q)) : desc_score (Sklearn.sort_desc l).
Proof.
  unfold Sklearn.sort_desc, desc_score.
  apply (@ssorted_rev _ (fun x y => snd x <= snd y)).
  induction l as [|x l IH]; simpl; [constructor|].
  now apply insert_by_score_asc.
Qed.

Lemma insert_by_score_length (x : bool * Q) (l : list (bool * Q)) :
  List.length (Sklearn.insert_by_score x l) = S (List.length l).
Proof.
  induction l as [|z l IH]; simpl; [reflexivity|].
  destruct (Qle_bool _ _); simpl; now rewrite ?IH.
Qed.

Lemma sort_desc_length (l : list (bool * Q)) :
  List.length (Sklearn.sort_desc l) = List.length l.
Proof.
  unfold Sklearn.sort_desc. rewrite length_rev.
  induction l as [|x l IH]; simpl; [reflexivity|].
  now rewrite insert_by_score_length, IH.
Qed.

(** Every threshold of the walk is the score of a sample. *)
Lemma clf_walk_thr_in (l : list (bool * Q)) :
  forall i tp p, In p (Sklearn.clf_walk i tp l) ->
                 exists y, In (y, Sklearn.thr_of p) l.
Proof.
  induction l as [|[y s] rest IH]; intros i tp p; simpl; [easy|].
  destruct rest as [|[y' s'] rest'].
  - intros [<-|[]]. exists y. now left.
  - destruct (Qeq_bool s s').
    + intros H. apply IH in H. destruct H as [z Hz]. exists z. now right.
    + intros [<-|H].
      * exists y. now left.
      * apply IH in H. destruct H as [z Hz]. exists z. now right.
Qed.

Lemma clf_walk_nonempty (l : list (bool * Q)) :
  l <> [] -> forall i tp, Sklearn.clf_walk i tp l <> [].
Proof.
  induction l as [|[y s] rest IH]; intros Hl i tp; [easy|]. simpl.
  destruct rest as [|[y' s'] rest']; [easy|].
  destruct (Qeq_bool s s'); [|easy].
  apply IH. easy.
Qed.

(** On samples sorted by decreasing score the thresholds of the walk
    decrease strictly. *)
Lemma clf_walk_thr_desc (l : list (bool * Q)) :
  desc_score l ->
  forall i tp,
    StronglySorted (fun p q => Sklearn.thr_of q < Sklearn.thr_of p)
                   (Sklearn.clf_walk i tp l).
Proof.
  unfold desc_score. induction 1 as [|[y s] rest Hs IH Hy]; intros i tp.
  - constructor.
  - simpl. destruct rest as [|[y' s'] rest'].
    + repeat constructor.
    + destruct (Qeq_bool s s') eqn:E; [apply IH|].
      constructor; [apply IH|].
      apply Forall_forall. intros q Hq.
      apply clf_walk_thr_in in Hq. destruct Hq as [z Hz].
      unfold Sklearn.thr_of at 2. cbn [snd].
      assert (L1 : s' <= s).
      { rewrite Forall_forall in Hy. apply (Hy (y', s')). now left. }
      assert (L2 : Sklearn.thr_of q <= s').
      { destruct Hz as [Hz|Hz].
        - injection Hz as _ <-. apply Qle_refl.
        - inversion Hs as [|? ? _ Hy']; subst.
          rewrite Forall_forall in Hy'. apply (Hy' _ Hz). }
      apply Qle_lt_trans with s'; [exact L2|].
      apply Qle_lteq in L1. destruct L1 as [L1|L1]; [exact L1|].
      apply Qeq_sym, Qeq_eq_bool in L1. congruence.
Qed.

(** The true-positive counts of the walk start at [tp] and never
    decrease. *)
Lemma clf_walk_tps_sorted (l : list (bool * Q)) :
  forall i tp,
    StronglySorted (fun p q => (Sklearn.tps_of p <= Sklearn.tps_of q)%Z)
                   (Sklearn.clf_walk i tp l) /\
    Forall (fun p => (tp <= Sklearn.tps_of p)%Z) (Sklearn.clf_walk i tp l).
Proof.
  induction l as [|[y s] rest IH]; intros i tp; simpl.
  - split; constructor.
  - assert (B : (tp <= tp + Sklearn.b2z y)%Z) by (destruct y; simpl; lia).
    destruct rest as [|[y' s'] rest'].
    + split; repeat constructor. exact B.
    + destruct (IH (i + 1)%Z (tp + Sklearn.b2z y)%Z) as [S F].
      assert (F' : Forall (fun p => (tp <= Sklearn.tps_of p)%Z)
                          (Sklearn.clf_walk (i + 1) (tp + Sklearn.b2z y)
                                            ((y', s') :: rest'))).
      { eapply Forall_impl; [|exact F]. simpl. intros; lia. }
      destruct (Qeq_bool s s').
      * split; assumption.
      * split; constructor; assumption.
Qed.

End CurveFacts.

Section CurveShape.

Variables (y_true : list bool) (y_score : list Q).
Hypothesis nonempty : combine y_true y_score <> [].

Let pts := Sklearn.binary_clf_curve y_true y_score.

Lemma pts_nonempty : pts <> [].
Proof.
  unfold pts, Sklearn.binary_clf_curve. apply clf_walk_nonempty.
  intros E. apply (f_equal (@List.length _)) in E.
  rewrite sort_desc_length in E.
  destruct (combine y_true y_score); [now apply nonempty | discriminate].
Qed.

Lemma curve_some :
  exists c, Sklearn.precision_recall_curve y_true y_score = Some c /\
            Sklearn.thresholds c = rev (map Sklearn.thr_of pts) /\
            List.length (Sklearn.precision c) = S (List.length pts) /\
            List.length (Sklearn.recall c) = S (List.length pts) /\
            (exists rec, Sklearn.recall c = rev rec ++ [0] /\
                         List.length rec = List.length pts /\
                         rec = if (last (map Sklearn.tps_of pts) 0 =? 0)%Z
                               then map (fun _ => 1) pts
                               else map (fun p =>
                                           inject_Z (Sklearn.tps_of p)
                                           / inject_Z (last (map Sklearn.tps_of pts) 0%Z))
                                        pts).
Proof.
  unfold Sklearn.precision_recall_curve. fold pts.
  destruct (combine y_true y_score) eqn:E; [now contradiction nonempty|].
  eexists. split; [reflexivity|]. cbn [Sklearn.thresholds Sklearn.precision Sklearn.recall].
  split; [reflexivity|].
  split; [rewrite length_app, length_rev, length_map; simpl; lia|].
  split.
  - rewrite length_app, length_rev. destruct (_ =? _)%Z;
      rewrite length_map; simpl; lia.
  - eexists. split; [reflexivity|]. split; [|reflexivity].
    destruct (_ =? _)%Z; now rewrite length_map.
Qed.

(** The thresholds of the curve increase strictly with the index. *)
Lemma curve_thresholds_increasing (c : Sklearn.Curve) :
  Sklearn.precision_recall_curve y_true y_score = Some c ->
  StronglySorted Qlt (Sklearn.thresholds c).
Proof.
  intros Hc. destruct curve_some as (c' & Hc' & Ht & _).
  rewrite Hc in Hc'. injection Hc' as <-. rewrite Ht.
  apply (@ssorted_rev _ (fun a b => b < a)).
  apply (@ssorted_map _ _ (fun p q => Sklearn.thr_of q < Sklearn.thr_of p)).
  - auto.
  - apply clf_walk_thr_desc, sort_desc_sorted.
Qed.

Lemma last_in (A : Type) (l : list A) (d : A) : l <> [] -> In (last l d) l.
Proof.
  induction l as [|x l IH]; [easy|]. intros _.
  destruct l as [|y l]; [now left|].
  right. apply IH. easy.
Qed.

(** The recalls of the curve never increase with the index. *)
Lemma curve_recall_decreasing (c : Sklearn.Curve) :
  Sklearn.precision_recall_curve y_true y_score = Some c ->
  StronglySorted (fun a b => b <= a) (Sklearn.recall c).
Proof.
  intros Hc. destruct curve_some as (c' & Hc' & _ & _ & _ & rec & Hr & _ & Hrec).
  rewrite Hc in Hc'. injection Hc' as <-. rewrite Hr. clear Hr Hc.
  destruct (clf_walk_tps_sorted (Sklearn.sort_desc (combine y_true y_score)) 0 0)
    as [Hs Hf].
  fold (Sklearn.binary_clf_curve y_true y_score) in Hs, Hf. fold pts in Hs, Hf.
  set (last_tp := last (map Sklearn.tps_of pts) 0%Z) in *.
  assert (Hl : (0 <= last_tp)%Z).
  { unfold last_tp. destruct (map Sklearn.tps_of pts) eqn:E; [simpl; lia|].
    rewrite <- E.
    assert (I : In (last (map Sklearn.tps_of pts) 0%Z) (map Sklearn.tps_of pts)).
    { apply last_in. rewrite E. easy. }
    apply in_map_iff in I. destruct I as (p & <- & Hp).
    rewrite Forall_forall in Hf. now apply Hf. }
  apply ssorted_snoc.
  - apply (@ssorted_rev _ (fun a b => a <= b)). subst rec.
    destruct (last_tp =? 0)%Z.
    + apply (@ssorted_map _ _ (fun p q => (Sklearn.tps_of p <= Sklearn.tps_of q)%Z));
        [intros; apply Qle_refl | exact Hs].
    + apply (@ssorted_map _ _ (fun p q => (Sklearn.tps_of p <= Sklearn.tps_of q)%Z));
        [|exact Hs].
      intros p q _ _ Hpq. unfold Qdiv. apply Qmult_le_compat_r.
      * now rewrite <- Zle_Qle.
      * apply Qinv_le_0_compat. change 0 with (inject_Z 0). now rewrite <- Zle_Qle.
  - apply Forall_forall. intros x Hx. apply in_rev in Hx. subst rec.
    destruct (last_tp =? 0)%Z; apply in_map_iff in Hx; destruct Hx as (p & <- & Hp).
    + discriminate.
    + rewrite Forall_forall in Hf. apply Hf in Hp.
      unfold Qdiv. apply Qmult_le_0_compat.
      * change 0 with (inject_Z 0). now rewrite <- Zle_Qle.
      * apply Qinv_le_0_compat. change 0 with (inject_Z 0). now rewrite <- Zle_Qle.
Qed.

End CurveShape.

(** C7. With the records fixed, a lower threshold never gives a lower
    recall: in the sweep, [t1 <= t2] makes the recall at [t1] at least the
    recall at [t2]; on the curve, of two points the one with the larger
    index has the larger threshold and a recall that is not larger. *)
Theorem C7_recall_monotone_in_threshold
        (merged : list MergedRecord) (t1 t2 : Q) :
  t1 <= t2 -> sweep_recall_ge merged t1 t2 /\ curve_recall_antitone merged.
Proof.
  intros Ht. unfold sweep_recall_ge, curve_recall_antitone. split.
  - destruct (sweep_row_counts merged t1) as (_ & _ & -> & _).
    destruct (sweep_row_counts merged t2) as (_ & _ & -> & _).
    rewrite !tp_fn_positives.
    apply prf_divide_mono; [now apply n_tp_antitone | lia].
  - intros c i j Hc Hij Hj. unfold EvaluateSmall.pr_curve in Hc.
    assert (Hne : combine (map m_label merged) (map m_score merged) <> []).
    { intros E. unfold Sklearn.precision_recall_curve in Hc.
      rewrite E in Hc. discriminate. }
    split.
    + apply ssorted_nth; try assumption.
      eapply curve_thresholds_increasing; eassumption.
    + destruct (curve_some _ _ Hne) as (c' & Hc' & Hth & _ & Hlr & _).
      rewrite Hc in Hc'. injection Hc' as <-.
      apply (@ssorted_nth _ (fun a b => b <= a)); try assumption.
      * eapply curve_recall_decreasing; eassumption.
      * rewrite Hlr. rewrite Hth, length_rev, length_map in Hj. lia.
Qed.

Lemma C7_witness :
  0.05 <= 0.5 /\
  sweep_recall_ge overlap_records 0.05 0.5 /\
  curve_recall_antitone overlap_records.
Proof.
  split; [unfold Qle; simpl; lia|].
  apply (@C7_recall_monotone_in_threshold overlap_records 0.05 0.5).
  unfold Qle; simpl; lia.
Defined.

(** ** The F1-optimal point *)

Section ArgmaxFacts.

Lemma Qltb_lt (x y : Q) : Numpy.Qltb x y = true <-> x < y.
Proof.
  unfold Numpy.Qltb. rewrite negb_true_iff. split.
  - intros H. apply Qnot_le_lt. intros C. apply Qle_bool_iff in C. congruence.
  - intros H. destruct (Qle_bool y x) eqn:E; [|reflexivity].
    apply Qle_bool_iff in E. exfalso. now apply (Qlt_not_le _ _ H).
Qed.

Lemma Qltb_ge (x y : Q) : Numpy.Qltb x y = false <-> y <= x.
Proof.
  unfold Numpy.Qltb. rewrite negb_false_iff. apply Qle_bool_iff.
Qed.

(** The scan that [argmax] runs: [pre] holds the entries already seen,
    [bi] is the first index of their maximum [b]. *)
Lemma argmax_from_spec (l : list Q) :
  forall (pre : list Q) (bi : nat) (b : Q),
    (bi < List.length pre)%nat -> nth bi pre 0 = b ->
    (forall j, (j < List.length pre)%nat -> nth j pre 0 <= b) ->
    (forall j, (j < bi)%nat -> nth j pre 0 < b) ->
    let k := Numpy.argmax_from l (List.length pre) bi b in
    (k < List.length (pre ++ l))%nat /\
    (forall j, (j < List.length (pre ++ l))%nat ->
               nth j (pre ++ l) 0 <= nth k (pre ++ l) 0) /\
    (forall j, (j < k)%nat -> nth j (pre ++ l) 0 < nth k (pre ++ l) 0).
Proof.
  induction l as [|x l IH]; intros pre bi b Hbi Hb Hmax Hfirst; cbn zeta.
  - simpl. rewrite app_nil_r. rewrite Hb. auto.
  - cbn [Numpy.argmax_from].
    assert (L : List.length (pre ++ [x]) = S (List.length pre))
      by (rewrite length_app; simpl; lia).
    assert (A : pre ++ x :: l = (pre ++ [x]) ++ l)
      by (now rewrite <- app_assoc).
    assert (N1 : forall j, (j < List.length pre)%nat ->
                           nth j (pre ++ [x]) 0 = nth j pre 0)
      by (intros; now apply app_nth1).
    assert (N2 : nth (List.length pre) (pre ++ [x]) 0 = x)
      by (rewrite app_nth2, Nat.sub_diag; [reflexivity | lia]).
    rewrite A, <- L.
    destruct (Numpy.Qltb b x) eqn:E.
    + apply Qltb_lt in E. apply IH.
      * lia.
      * exact N2.
      * intros j Hj. rewrite L in Hj.
        destruct (Nat.eq_dec j (List.length pre)) as [->|Hne].
        -- rewrite N2. apply Qle_refl.
        -- rewrite N1 by lia. apply Qlt_le_weak.
           apply Qle_lt_trans with b; [apply Hmax; lia | exact E].
      * intros j Hj. rewrite N1 by lia.
        apply Qle_lt_trans with b; [apply Hmax; lia | exact E].
    + apply Qltb_ge in E. apply IH.
      * lia.
      * rewrite N1 by lia. exact Hb.
      * intros j Hj. rewrite L in Hj.
        destruct (Nat.eq_dec j (List.length pre)) as [->|Hne].
        -- now rewrite N2.
        -- rewrite N1 by lia. apply Hmax. lia.
      * intros j Hj. rewrite N1 by lia. now apply Hfirst.
Qed.

(** [argmax] returns the first index of the maximum. *)
Lemma argmax_first_max (l : list Q) :
  l <> [] ->
  exists k, Numpy.argmax l = Some k /\
            (k < List.length l)%nat /\
            (forall j, (j < List.length l)%nat -> nth j l 0 <= nth k l 0) /\
            (forall j, (j < k)%nat -> nth j l 0 < nth k l 0).
Proof.
  destruct l as [|x l]; [easy|]. intros _.
  exists (Numpy.argmax_from l 1 0 x). split; [reflexivity|].
  apply (@argmax_from_spec l [x] 0%nat x); simpl.
  - lia.
  - reflexivity.
  - intros [|j] Hj; [apply Qle_refl | lia].
  - intros j Hj. lia.
Qed.

Lemma zip_with_length (f : Q -> Q -> Q) (a b : list Q) :
  List.length a = List.length b ->
  List.length (Numpy.zip_with f a b) = List.length a.
Proof.
  revert b; induction a as [|x a IH]; intros [|y b] H; simpl in *; try easy.
  now rewrite IH by lia.
Qed.

End ArgmaxFacts.

(** C1 as stated fails on [tie_records]: the thresholds 0.5 and 0.9 have
    the same, maximal, F1 and the script selects 0.5. *)
Lemma C1_counterexample : ~ best_max_largest tie_records.
Proof.
  intros H.
  destruct (AnalyzeResults.best_point tie_records) as [b|] eqn:Hb;
    [|vm_compute in Hb; discriminate Hb].
  destruct (H b Hb) as [_ Hl]. clear H.
  vm_compute in Hb. injection Hb as <-.
  specialize (Hl 1%nat). cbn in Hl.
  assert (C : 0.9 <= 1 # 2).
  { apply Hl; [lia | reflexivity]. }
  revert C. unfold Qle. simpl. lia.
Qed.

(** C1, amended. On a non-empty sequence of records the script selects a
    point; its F1 is the largest entry of [f1_scores], the F1 of the
    points of the curve without the final one, and every other point with
    that F1 has a larger threshold: on ties the smallest threshold wins. *)
Theorem C1_best_f1_max_smallest_threshold (merged : list MergedRecord) :
  merged <> [] -> best_max_smallest merged.
Proof.
  intros Hm. unfold best_max_smallest, AnalyzeResults.best_point.
  assert (Hne : combine (map m_label merged) (map m_score merged) <> []).
  { destruct merged; [easy | discriminate]. }
  destruct (curve_some _ _ Hne) as (c & Hc & Hth & Hlp & Hlr & rec & Hrec & _).
  pose proof (curve_thresholds_increasing _ _ Hne Hc) as Hinc.
  rewrite Hc. cbv beta iota zeta.
  set (pts := Sklearn.binary_clf_curve (map m_label merged) (map m_score merged)) in *.
  set (f1s := Numpy.zip_with AnalyzeResults.f1_entry
                (Numpy.but_last (Sklearn.precision c))
                (Numpy.but_last (Sklearn.recall c))).
  assert (Hlt : List.length (Sklearn.thresholds c) = List.length pts).
  { now rewrite Hth, length_rev, length_map. }
  assert (Hbl : forall l : list Q, List.length (Numpy.but_last l)
                                   = (List.length l - 1)%nat).
  { intros l. unfold Numpy.but_last. induction l as [|x [|y l] IH]; simpl in *; lia. }
  assert (Hlf : List.length f1s = List.length pts).
  { unfold f1s. rewrite zip_with_length; rewrite !Hbl; lia. }
  assert (Hpts : pts <> []) by (now apply pts_nonempty).
  assert (Hf : f1s <> []).
  { intros E. rewrite E in Hlf. destruct pts; [easy | discriminate]. }
  destruct (argmax_first_max Hf) as (k & Hk & Hkl & Hmax & Hfirst).
  assert (Hkt : (k <? List.length (Sklearn.thresholds c))%nat = true).
  { apply Nat.ltb_lt. lia. }
  rewrite Hk, Hkt. eexists. split; [reflexivity|].
  split; [reflexivity|].
  split; [split; [reflexivity | cbn; fold f1s; lia]|].
  split.
  - unfold f1_is_max. cbn [AnalyzeResults.best_idx AnalyzeResults.f1_scores
      AnalyzeResults.best_f1 AnalyzeResults.best_thresh AnalyzeResults.curve].
    auto.
  - unfold smallest_on_ties. cbn [AnalyzeResults.best_idx AnalyzeResults.f1_scores
      AnalyzeResults.best_f1 AnalyzeResults.best_thresh AnalyzeResults.curve].
    intros i Hi Heq Hik.
    apply ssorted_nth; [exact Hinc | | lia].
    destruct (Nat.lt_trichotomy i k) as [H|[H|H]]; [|easy|exact H].
    exfalso. apply Hfirst in H. rewrite Heq in H. now apply Qlt_irrefl in H.
Qed.

Lemma C1_witness : best_max_smallest tie_records.
Proof.
  apply (@C1_best_f1_max_smallest_threshold tie_records). discriminate.
Defined.

(** ** The stratifier *)

Section StratifierFacts.

Lemma min_scan_lower (l : list Q) :
  forall x,
    let m := fold_left (fun m y => if Numpy.Qltb y m then y else m) l x in
    m <= x /\ forall y, In y l -> m <= y.
Proof.
  induction l as [|z l IH]; intros x; cbn zeta; simpl.
  - split; [apply Qle_refl | easy].
  - destruct (Numpy.Qltb z x) eqn:E.
    + apply Qltb_lt in E. destruct (IH z) as [H1 H2]. split.
      * apply Qle_trans with z; [exact H1 | now apply Qlt_le_weak].
      * intros y [<-|Hy]; auto.
    + apply Qltb_ge in E. destruct (IH x) as [H1 H2]. split; [exact H1|].
      intros y [<-|Hy]; auto. now apply Qle_trans with x.
Qed.

Lemma sum_lower (l : list Q) (m : Q) :
  (forall y, In y l -> m <= y) ->
  inject_Z (Z.of_nat (List.length l)) * m <= Numpy.sum l.
Proof.
  induction l as [|x l IH]; intros H.
  - simpl. rewrite Qmult_0_l. apply Qle_refl.
  - cbn [List.length Numpy.sum fold_right].
    rewrite Nat2Z.inj_succ, <- Z.add_1_l, inject_Z_plus.
    assert (Hx : m <= x) by (apply H; now left).
    assert (Hl : inject_Z (Z.of_nat (List.length l)) * m <= Numpy.sum l)
      by (apply IH; intros; apply H; now right).
    unfold Numpy.sum in Hl. change (inject_Z 1) with 1. lra.
Qed.

(** The minimum of a column is at most its mean. *)
Lemma min_le_mean (l : list Q) (mn mu : Q) :
  Numpy.min l = Some mn -> Numpy.mean l = Some mu -> mn <= mu.
Proof.
  destruct l as [|x l]; [discriminate|].
  unfold Numpy.min, Numpy.mean. intros Hmn Hmu.
  injection Hmn as <-. injection Hmu as <-.
  destruct (min_scan_lower l x) as [H1 H2].
  set (m := fold_left _ l x) in *.
  apply Qle_shift_div_l.
  - change 0 with (inject_Z 0). rewrite <- Zlt_Qlt.
    cbn [List.length]. lia.
  - rewrite Qmult_comm. apply (@sum_lower (x :: l) m).
    intros y [<-|Hy]; auto.
Qed.

(** The recomputed cut-offs are separated. *)
Lemma fallback_separated (mu mn : Q) :
  mn <= mu -> py_min 0.01 (py_max 0 mn) < py_max 0.01 (mu + 1e-6).
Proof.
  intros H. unfold py_min, py_max.
  change (1e-6) with (1 # 1000000).
  destruct (Numpy.Qltb 0 mn) eqn:E0;
    [apply Qltb_lt in E0 | apply Qltb_ge in E0];
    (destruct (Numpy.Qltb 0.01 (mu + (1 # 1000000))) eqn:E1;
     [apply Qltb_lt in E1 | apply Qltb_ge in E1]);
    match goal with
    | |- context [Numpy.Qltb ?a ?b] =>
        destruct (Numpy.Qltb a b) eqn:E2;
        [apply Qltb_lt in E2 | apply Qltb_ge in E2]
    end; lra.
Qed.

(** The cut-offs are always computed, and the high one is above the low
    one. *)
Lemma adaptive_thresholds_separated (merged : list MergedRecord) :
  exists high low,
    EvaluateSmall.adaptive_thresholds merged = Some (high, low) /\ low < high.
Proof.
  unfold EvaluateSmall.adaptive_thresholds.
  set (pos := map m_score (filter m_label merged)).
  set (neg := map m_score (filter (fun r => negb (m_label r)) merged)).
  set (high := match pos with [] => 0.01 | _ => Pandas.quantile_half pos end).
  set (low := match neg with [] => 0.001 | _ => Pandas.quantile_half neg end).
  destruct (Qle_bool high low) eqn:E.
  - destruct merged as [|r l] eqn:Em.
    + exfalso. subst pos neg high low. simpl in E. discriminate.
    + rewrite <- Em in *.
      destruct (Numpy.mean (map m_score merged)) as [mu|] eqn:Hmu;
        [|rewrite Em in Hmu; discriminate].
      destruct (Numpy.min (map m_score merged)) as [mn|] eqn:Hmn;
        [|rewrite Em in Hmn; discriminate].
      eexists _, _. split; [reflexivity|].
      apply fallback_separated. eapply min_le_mean; eassumption.
  - exists high, low. split; [reflexivity|].
    apply Qnot_le_lt. intros C. apply Qle_bool_iff in C. congruence.
Qed.

Lemma in_firstn (A : Type) (n : nat) (l : list A) (x : A) :
  In x (firstn n l) -> In x l.
Proof.
  intros H. rewrite <- (firstn_skipn n l). apply in_or_app. now left.
Qed.

(** Every row of the false-positive bucket, padding included, has
    label 0. *)
Lemma fp_bucket_label (merged : list MergedRecord) (r : MergedRecord) :
  In r (EvaluateSmall.fp_bucket merged) -> m_label r = false.
Proof.
  unfold EvaluateSmall.fp_bucket.
  set (fp := filter _ merged).
  assert (Hfp : forall x, In x fp -> m_label x = false).
  { intros x Hx. apply filter_In in Hx. destruct Hx as [_ Hx].
    apply andb_true_iff in Hx. destruct Hx as [Hx _].
    now apply negb_true_iff in Hx. }
  destruct (_ <? 5)%nat; [|apply Hfp].
  intros H. apply in_firstn in H. apply in_app_or in H.
  destruct H as [H|H]; [now apply Hfp|].
  apply in_map_iff in H. destruct H as (x & <- & Hx).
  apply in_firstn in Hx. apply filter_In in Hx. destruct Hx as [Hx _].
  apply filter_In in Hx. destruct Hx as [_ Hx].
  simpl. now apply negb_true_iff in Hx.
Qed.

End StratifierFacts.

(** C8. On a sequence with at least one record the stratifier's cut-offs
    are computed and the high one is strictly above the low one, whether
    or not they were recomputed. *)
Theorem C8_high_thresh_above_low_thresh (merged : list MergedRecord) :
  merged <> [] ->
  exists high_thresh low_thresh,
    EvaluateSmall.adaptive_thresholds merged = Some (high_thresh, low_thresh) /\
    low_thresh < high_thresh.
Proof. intros _. apply adaptive_thresholds_separated. Qed.

Lemma C8_witness :
  exists high_thresh low_thresh,
    EvaluateSmall.adaptive_thresholds flat_records = Some (high_thresh, low_thresh) /\
    low_thresh < high_thresh.
Proof. apply (@C8_high_thresh_above_low_thresh flat_records). discriminate. Defined.

(** C9 as stated fails on [overlap_records]: the negative record, of
    score 0.1, is in the false-positive bucket (its score is positive) and
    in the true-negative bucket (its score is not above the low cut-off,
    0.1). *)
Lemma C9_counterexample : ~ buckets_disjoint overlap_records.
Proof.
  intros H.
  destruct (EvaluateSmall.stratify overlap_records) as [b|] eqn:Hb;
    [|vm_compute in Hb; discriminate Hb].
  destruct (H b Hb) as (_ & _ & _ & D & _). clear H.
  vm_compute in Hb. injection Hb as <-.
  apply (D (rec_of "c" "d" false 0.1)); vm_compute; auto.
Qed.

(** C9, amended. The stratifier returns its four buckets; they are
    separated by label (TP and FN hold records of label 1, FP and TN
    records of label 0) and TP and FN are disjoint: every pair of buckets
    is disjoint except FP and TN. *)
Theorem C9_buckets_disjoint_except_fp_tn (merged : list MergedRecord) :
  stratify_splits_by_label merged.
Proof.
  unfold stratify_splits_by_label, EvaluateSmall.stratify.
  destruct (adaptive_thresholds_separated merged) as (high & low & -> & Hsep).
  eexists. split; [reflexivity|].
  unfold buckets_split_by_label, disjoint.
  cbn [EvaluateSmall.tp EvaluateSmall.fp EvaluateSmall.tn EvaluateSmall.fn].
  assert (Ltp : forall r, In r (filter (fun r => m_label r && Qle_bool high (m_score r)) merged)
                          -> m_label r = true /\ high <= m_score r).
  { intros r Hr. apply filter_In in Hr. destruct Hr as [_ Hr].
    apply andb_true_iff in Hr. now rewrite Qle_bool_iff in Hr. }
  assert (Lfn : forall r, In r (filter (fun r => m_label r && Qle_bool (m_score r) low) merged)
                          -> m_label r = true /\ m_score r <= low).
  { intros r Hr. apply filter_In in Hr. destruct Hr as [_ Hr].
    apply andb_true_iff in Hr. now rewrite Qle_bool_iff in Hr. }
  assert (Ltn : forall r, In r (filter (fun r => negb (m_label r) && Qle_bool (m_score r) low) merged)
                          -> m_label r = false).
  { intros r Hr. apply filter_In in Hr. destruct Hr as [_ Hr].
    apply andb_true_iff in Hr. destruct Hr as [Hr _]. now apply negb_true_iff in Hr. }
  pose proof (fp_bucket_label merged) as Lfp.
  repeat split.
  - intros r Hr. now apply Ltp.
  - intros r Hr. now apply Lfn.
  - exact Lfp.
  - exact Ltn.
  - intros r H1 H2. apply Ltp in H1. apply Lfn in H2.
    destruct H1 as [_ H1], H2 as [_ H2]. lra.
  - intros r H1 H2. apply Ltp in H1. apply Lfp in H2. destruct H1; congruence.
  - intros r H1 H2. apply Ltp in H1. apply Ltn in H2. destruct H1; congruence.
  - intros r H1 H2. apply Lfp in H1. apply Lfn in H2. destruct H2; congruence.
  - intros r H1 H2. apply Ltn in H1. apply Lfn in H2. destruct H2; congruence.
Qed.


(** ** The curve and the sweep count the same records *)

Section CurveCounts.

Lemma ssorted_app_inv (A : Type) (R : A -> A -> Prop) (a b : list A) :
  StronglySorted R (a ++ b) ->
  StronglySorted R b /\ forall x y, In x a -> In y b -> R x y.
Proof.
  induction a as [|z a IH]; simpl; intros H.
  - split; [exact H | easy].
  - inversion H as [|? ? Hs Hz]; subst.
    destruct (IH Hs) as [Hb Hab]. split; [exact Hb|].
    intros x y [<-|Hx] Hy; [|now apply Hab].
    rewrite Forall_forall in Hz. apply Hz. apply in_or_app. now right.
Qed.

Lemma filter_all (A : Type) (f g : A -> bool) (l : list A) :
  (forall x, In x l -> f x = g x) -> filter f l = filter g l.
Proof.
  induction l as [|x l IH]; intros H; simpl; [reflexivity|].
  rewrite (H x) by now left. rewrite IH; [reflexivity|].
  intros; apply H; now right.
Qed.

Lemma filter_none (A : Type) (f : A -> bool) (l : list A) :
  (forall x, In x l -> f x = false) -> filter f l = [].
Proof.
  induction l as [|x l IH]; intros H; simpl; [reflexivity|].
  rewrite (H x) by now left. apply IH. intros; apply H; now right.
Qed.

(** With [a] at or above [t] and [b] strictly below it, the counts at [t]
    over [a ++ b] are the label counts of [a]. *)
Lemma counts_split (a b : list (bool * Q)) (t : Q) :
  (forall x, In x a -> t <= snd x) ->
  (forall x, In x b -> snd x < t) ->
  s_tp (a ++ b) t = Z.of_nat (List.length (filter fst a)) /\
  s_fp (a ++ b) t
  = (Z.of_nat (List.length a) - Z.of_nat (List.length (filter fst a)))%Z.
Proof.
  intros Ha Hb. unfold s_tp, s_fp. rewrite !filter_app, !length_app.
  rewrite (@filter_none _ (fun x => fst x && Qle_bool t (snd x)) b),
          (@filter_none _ (fun x => negb (fst x) && Qle_bool t (snd x)) b).
  - rewrite (@filter_all _ (fun x => fst x && Qle_bool t (snd x)) fst a),
            (@filter_all _ (fun x => negb (fst x) && Qle_bool t (snd x))
                         (fun x => negb (fst x)) a).
    + simpl. rewrite !Nat.add_0_r. split; [reflexivity|].
      pose proof (filter_length fst a). lia.
    + intros x Hx. apply Ha, Qle_bool_iff in Hx. rewrite Hx. apply andb_true_r.
    + intros x Hx. apply Ha, Qle_bool_iff in Hx. rewrite Hx. apply andb_true_r.
  - intros x Hx. apply Hb in Hx.
    destruct (Qle_bool t (snd x)) eqn:E; [|apply andb_false_r].
    apply Qle_bool_iff in E. exfalso. now apply (Qlt_not_le _ _ Hx).
  - intros x Hx. apply Hb in Hx.
    destruct (Qle_bool t (snd x)) eqn:E; [|apply andb_false_r].
    apply Qle_bool_iff in E. exfalso. now apply (Qlt_not_le _ _ Hx).
Qed.

Lemma filter_fst_snoc (a : list (bool * Q)) (y : bool) (s : Q) :
  Z.of_nat (List.length (filter fst (a ++ [(y, s)])))
  = (Z.of_nat (List.length (filter fst a)) + Sklearn.b2z y)%Z.
Proof.
  rewrite filter_app, length_app. destruct y; simpl; lia.
Qed.

(** The walk, having consumed [pre], emits the counts over the whole
    sorted list. *)
Lemma clf_walk_counts (l : list (bool * Q)) :
  forall (pre : list (bool * Q)) (i tp : Z),
    desc_score (pre ++ l) ->
    i = Z.of_nat (List.length pre) ->
    tp = Z.of_nat (List.length (filter fst pre)) ->
    Forall (point_counts (pre ++ l)) (Sklearn.clf_walk i tp l).
Proof.
  induction l as [|[y s] rest IH]; intros pre i tp Hd Hi Htp; [constructor|].
  assert (A : pre ++ (y, s) :: rest = (pre ++ [(y, s)]) ++ rest)
    by (now rewrite <- app_assoc).
  assert (Hrec : Forall (point_counts (pre ++ (y, s) :: rest))
                        (Sklearn.clf_walk (i + 1) (tp + Sklearn.b2z y) rest)).
  { rewrite A. apply IH.
    - now rewrite <- A.
    - rewrite length_app. simpl. lia.
    - now rewrite filter_fst_snoc, Htp. }
  assert (Hhere : forall s', (forall x, In x rest -> snd x <= s') -> s' < s ->
            point_counts (pre ++ (y, s) :: rest)
                         ((1 + i - (tp + Sklearn.b2z y))%Z, (tp + Sklearn.b2z y)%Z, s)).
  { intros s' Hrest Hlt. unfold point_counts.
    unfold Sklearn.tps_of, Sklearn.fps_of, Sklearn.thr_of. cbn [fst snd].
    rewrite A.
    destruct (@counts_split (pre ++ [(y, s)]) rest s) as [E1 E2].
    - intros x Hx. apply in_app_or in Hx. destruct Hx as [Hx|[<-|[]]].
      + unfold desc_score in Hd. apply ssorted_app_inv in Hd.
        destruct Hd as [_ Hd]. apply (Hd x (y, s) Hx). now left.
      + apply Qle_refl.
    - intros x Hx. apply Qle_lt_trans with s'; auto.
    - rewrite E1, E2, filter_fst_snoc, length_app, Htp, Hi.
      cbn [List.length]. split; lia. }
  cbn [Sklearn.clf_walk].
  destruct rest as [|[y' s'] rest'].
  - constructor; [|constructor].
    apply (Hhere (s - 1)); [easy | lra].
  - assert (Hd' : desc_score ((y, s) :: (y', s') :: rest')).
    { unfold desc_score in *. now apply ssorted_app_inv in Hd. }
    unfold desc_score in Hd'.
    inversion Hd' as [|? ? Hs1 Hf1]; subst.
    inversion Hs1 as [|? ? Hs2 Hf2]; subst.
    destruct (Qeq_bool s s') eqn:E; [exact Hrec|].
    constructor; [|exact Hrec].
    apply (Hhere s').
    + intros x [<-|Hx]; [apply Qle_refl|].
      rewrite Forall_forall in Hf2. apply (Hf2 x Hx).
    + assert (L : s' <= s).
      { rewrite Forall_forall in Hf1. apply (Hf1 (y', s')). now left. }
      apply Qle_lteq in L. destruct L as [L|L]; [exact L|].
      apply Qeq_sym, Qeq_eq_bool in L. congruence.
Qed.

Lemma insert_by_score_perm (x : bool * Q) (l : list (bool * Q)) :
  Permutation (Sklearn.insert_by_score x l) (x :: l).
Proof.
  induction l as [|z l IH]; simpl; [reflexivity|].
  destruct (Qle_bool _ _); [reflexivity|].
  rewrite IH. apply perm_swap.
Qed.

Lemma sort_desc_perm (l : list (bool * Q)) : Permutation (Sklearn.sort_desc l) l.
Proof.
  unfold Sklearn.sort_desc. rewrite <- Permutation_rev.
  induction l as [|x l IH]; simpl; [reflexivity|].
  now rewrite insert_by_score_perm, IH.
Qed.

Lemma filter_length_perm (A : Type) (f : A -> bool) (l l' : list A) :
  Permutation l l' -> List.length (filter f l) = List.length (filter f l').
Proof.
  induction 1 as [|x l l' _ IH|x y l|l l' l'' _ IH1 _ IH2]; simpl.
  - reflexivity.
  - destruct (f x); simpl; now rewrite IH.
  - destruct (f x), (f y); reflexivity.
  - now rewrite IH1.
Qed.

Lemma samples_map (merged : list MergedRecord) :
  samples merged = map (fun r => (m_label r, m_score r)) merged.
Proof.
  unfold samples. induction merged as [|r l IH]; simpl; [reflexivity|].
  now rewrite IH.
Qed.

Lemma filter_map_length (A B : Type) (g : A -> B) (f : B -> bool) (l : list A) :
  List.length (filter f (map g l)) = List.length (filter (fun x => f (g x)) l).
Proof.
  induction l as [|x l IH]; simpl; [reflexivity|].
  destruct (f (g x)); simpl; now rewrite IH.
Qed.

Lemma s_tp_records (merged : list MergedRecord) (t : Q) :
  s_tp (samples merged) t = n_tp merged t.
Proof.
  unfold s_tp, n_tp. now rewrite samples_map, filter_map_length.
Qed.

Lemma s_fp_records (merged : list MergedRecord) (t : Q) :
  s_fp (samples merged) t = n_fp merged t.
Proof.
  unfold s_fp, n_fp. now rewrite samples_map, filter_map_length.
Qed.

Lemma nth_map_lt (A B : Type) (f : A -> B) (l : list A) (k : nat) (d : A) (d' : B) :
  (k < List.length l)%nat -> nth k (map f l) d' = f (nth k l d).
Proof.
  revert k; induction l as [|x l IH]; intros [|k] H; simpl in *; try lia.
  - reflexivity.
  - apply IH. lia.
Qed.

(** Every point of [_binary_clf_curve] on the columns of [merged] holds the
    numbers of positive and of negative records at or above its
    threshold. *)
Lemma binary_clf_curve_counts (merged : list MergedRecord) (p : Z * Z * Q) :
  In p (Sklearn.binary_clf_curve (map m_label merged) (map m_score merged)) ->
  Sklearn.tps_of p = n_tp merged (Sklearn.thr_of p) /\
  Sklearn.fps_of p = n_fp merged (Sklearn.thr_of p).
Proof.
  unfold Sklearn.binary_clf_curve. fold (samples merged). intros Hp.
  pose proof (@clf_walk_counts (Sklearn.sort_desc (samples merged)) [] 0%Z 0%Z
                (sort_desc_sorted _) eq_refl eq_refl) as H.
  rewrite Forall_forall in H. apply H in Hp. destruct Hp as [H1 H2].
  cbn [app] in H1, H2.
  rewrite <- s_tp_records, <- s_fp_records. rewrite H1, H2.
  unfold s_tp, s_fp.
  now rewrite !(filter_length_perm _ (sort_desc_perm (samples merged))).
Qed.

(** At each threshold of the curve the precision of the curve is the
    precision the sweep computes at that threshold. *)
Lemma curve_precision_is_sweep_precision
      (merged : list MergedRecord) (c : Sklearn.Curve) (i : nat) :
  EvaluateSmall.pr_curve merged = Some c ->
  (i < List.length (Sklearn.thresholds c))%nat ->
  nth i (Sklearn.precision c) 0
  = EvaluateSmall.row_p
      (EvaluateSmall.sweep_row merged (nth i (Sklearn.thresholds c) 0)).
Proof.
  unfold EvaluateSmall.pr_curve. intros Hc Hi.
  assert (Hne : combine (map m_label merged) (map m_score merged) <> []).
  { intros E. unfold Sklearn.precision_recall_curve in Hc.
    rewrite E in Hc. discriminate. }
  unfold Sklearn.precision_recall_curve in Hc.
  destruct (combine (map m_label merged) (map m_score merged)) eqn:E;
    [easy|]. rewrite <- E in *. clear E.
  injection Hc as <-. cbn [Sklearn.precision Sklearn.thresholds] in *.
  set (pts := Sklearn.binary_clf_curve (map m_label merged) (map m_score merged)) in *.
  rewrite length_rev, length_map in Hi.
  rewrite app_nth1 by (now rewrite length_rev, length_map).
  rewrite !rev_nth by (now rewrite length_map).
  rewrite !length_map.
  set (k := (List.length pts - S i)%nat).
  assert (Hk : (k < List.length pts)%nat) by (unfold k; lia).
  set (d := (0%Z, 0%Z, 0) : Z * Z * Q).
  rewrite (@nth_map_lt _ _ _ pts k d 0 Hk).
  rewrite (@nth_map_lt _ _ Sklearn.thr_of pts k d 0 Hk).
  destruct (@binary_clf_curve_counts merged (nth k pts d)) as [H1 H2].
  { apply nth_In. exact Hk. }
  destruct (sweep_row_counts merged (Sklearn.thr_of (nth k pts d)))
    as (_ & -> & _).
  now rewrite H1, H2.
Qed.

Lemma last_map_eq (A B : Type) (f : A -> B) (l : list A) (d : A) :
  last (map f l) (f d) = f (last l d).
Proof.
  induction l as [|x l IH]; [reflexivity|].
  destruct l as [|y l]; [reflexivity|]. exact IH.
Qed.

Lemma clf_walk_last_thr (l : list (bool * Q)) :
  l <> [] ->
  forall i tp d d',
    Sklearn.thr_of (last (Sklearn.clf_walk i tp l) d) = snd (last l d').
Proof.
  induction l as [|[y s] rest IH]; [easy|]. intros _ i tp d d'.
  cbn [Sklearn.clf_walk].
  destruct rest as [|[y' s'] rest']; [reflexivity|].
  assert (Hr : (y', s') :: rest' <> []) by easy.
  pose proof (clf_walk_nonempty Hr (i + 1) (tp + Sklearn.b2z y)) as Hw.
  change (last ((y, s) :: (y', s') :: rest') d') with (last ((y', s') :: rest') d').
  destruct (Qeq_bool s s'); [now apply IH|].
  destruct (Sklearn.clf_walk (i + 1) (tp + Sklearn.b2z y) ((y', s') :: rest'))
    as [|p w] eqn:E; [easy|].
  change (last (?h :: p :: w) d) with (last (p :: w) d).
  rewrite <- E. now apply IH.
Qed.

Lemma desc_last_lowest (l : list (bool * Q)) (d x : bool * Q) :
  desc_score l -> In x l -> snd (last l d) <= snd x.
Proof.
  intros Hd Hx. destruct l as [|z l]; [easy|].
  assert (Hne : z :: l <> []) by easy.
  rewrite (app_removelast_last d Hne) in Hd, Hx.
  apply in_app_or in Hx. destruct Hx as [Hx|[<-|[]]]; [|apply Qle_refl].
  unfold desc_score in Hd. apply ssorted_app_inv in Hd. destruct Hd as [_ Hd].
  apply (Hd x _ Hx). now left.
Qed.

(** The last point of [_binary_clf_curve] counts every positive record. *)
Lemma binary_clf_curve_last_tps (merged : list MergedRecord) :
  merged <> [] ->
  last (map Sklearn.tps_of
            (Sklearn.binary_clf_curve (map m_label merged) (map m_score merged)))
       0%Z
  = Z.of_nat (List.length (filter m_label merged)).
Proof.
  intros Hm.
  set (pts := Sklearn.binary_clf_curve (map m_label merged) (map m_score merged)).
  set (d := (0%Z, 0%Z, 0) : Z * Z * Q).
  assert (Hs : Sklearn.sort_desc (samples merged) <> []).
  { intros E. apply (f_equal (@List.length _)) in E.
    rewrite sort_desc_length, samples_map, length_map in E.
    destruct merged; [easy | discriminate]. }
  assert (Hpts : pts <> []).
  { unfold pts, Sklearn.binary_clf_curve. now apply clf_walk_nonempty. }
  change 0%Z with (Sklearn.tps_of d). rewrite last_map_eq. fold pts.
  destruct (@binary_clf_curve_counts merged (last pts d)) as [H1 _].
  { now apply last_in. }
  rewrite H1. unfold n_tp. f_equal. f_equal. apply filter_all.
  intros r Hr.
  assert (L : Sklearn.thr_of (last pts d) <= m_score r).
  { unfold pts, Sklearn.binary_clf_curve. fold (samples merged).
    rewrite (clf_walk_last_thr Hs 0 0 d (false, 0)).
    apply (@desc_last_lowest _ _ (m_label r, m_score r)); [apply sort_desc_sorted|].
    apply (Permutation_in _ (Permutation_sym (sort_desc_perm (samples merged)))).
    rewrite samples_map. apply in_map_iff. now exists r. }
  apply Qle_bool_iff in L. rewrite L. apply andb_true_r.
Qed.

(** When some record is positive, the recall of the curve at each of its
    thresholds is the recall the sweep computes at that threshold. *)
Lemma curve_recall_is_sweep_recall
      (merged : list MergedRecord) (c : Sklearn.Curve) (i : nat) :
  EvaluateSmall.pr_curve merged = Some c ->
  filter m_label merged <> [] ->
  (i < List.length (Sklearn.thresholds c))%nat ->
  nth i (Sklearn.recall c) 0
  = EvaluateSmall.row_r
      (EvaluateSmall.sweep_row merged (nth i (Sklearn.thresholds c) 0)).
Proof.
  unfold EvaluateSmall.pr_curve. intros Hc Hpos Hi.
  assert (Hm : merged <> []) by (intros ->; now apply Hpos).
  unfold Sklearn.precision_recall_curve in Hc.
  destruct (combine (map m_label merged) (map m_score merged)) eqn:E;
    [discriminate|]. clear E.
  injection Hc as <-. cbn [Sklearn.recall Sklearn.thresholds] in *.
  rewrite (binary_clf_curve_last_tps Hm).
  set (pts := Sklearn.binary_clf_curve (map m_label merged) (map m_score merged)) in *.
  set (P := Z.of_nat (List.length (filter m_label merged))).
  assert (HP : (P =? 0)%Z = false).
  { apply Z.eqb_neq. unfold P. destruct (filter m_label merged); [easy|].
    simpl. lia. }
  rewrite HP.
  rewrite length_rev, length_map in Hi.
  rewrite app_nth1 by (now rewrite length_rev, length_map).
  rewrite !rev_nth by (now rewrite length_map).
  rewrite !length_map.
  set (k := (List.length pts - S i)%nat).
  assert (Hk : (k < List.length pts)%nat) by (unfold k; lia).
  set (d := (0%Z, 0%Z, 0) : Z * Z * Q).
  rewrite (@nth_map_lt _ _ _ pts k d 0 Hk).
  rewrite (@nth_map_lt _ _ Sklearn.thr_of pts k d 0 Hk).
  destruct (@binary_clf_curve_counts merged (nth k pts d)) as [H1 _].
  { apply nth_In. exact Hk. }
  destruct (sweep_row_counts merged (Sklearn.thr_of (nth k pts d)))
    as (_ & _ & -> & _).
  rewrite tp_fn_positives. fold P. unfold Sklearn.prf_divide. rewrite HP.
  now rewrite H1.
Qed.

End CurveCounts.

(** ** Worked scenarios *)

(** Gold and system name the same pairs in opposite column order: both
    scripts join them, and at threshold 0.5 precision, recall and F1 are
    all 1. *)
Example swapped_pairs_are_joined :
  map (fun r => (m_key r, m_label r, m_score r))
      (EvaluateSmall.merge swapped_gold swapped_system)
  = [(lit "a|b", true, 0.9); (lit "c|d", false, 0.1)] /\
  AnalyzeResults.merge swapped_gold swapped_system
  = EvaluateSmall.merge swapped_gold swapped_system.
Proof. split; vm_compute; reflexivity. Qed.

Example swapped_pairs_at_half :
  let row := EvaluateSmall.sweep_row
               (EvaluateSmall.merge swapped_gold swapped_system) 0.5 in
  EvaluateSmall.row_p row == 1 /\ EvaluateSmall.row_r row == 1 /\
  EvaluateSmall.row_f1 row == 1.
Proof. repeat split; vm_compute; reflexivity. Qed.

(** A gold pair the system never scored gets the score 0. *)
Example unscored_pair_gets_zero :
  map m_score (EvaluateSmall.merge (concat_gold [] [row "x" "y"]) []) = [0] /\
  map m_score (AnalyzeResults.merge (concat_gold [] [row "x" "y"]) []) = [0].
Proof. split; reflexivity. Qed.

(** * Further properties *)

(** ** Stripping and keys *)

Section StripShape.

Lemma lstrip_decomp (s : str) : exists w, all_space w /\ s = w ++ lstrip s.
Proof.
  induction s as [|c s IH]; simpl.
  - exists []. now split.
  - destruct (isspace c) eqn:E.
    + destruct IH as (w & Hw & Hs). exists (c :: w). split.
      * unfold all_space in *. simpl. now rewrite E.
      * simpl. now rewrite <- Hs.
    + exists []. now split.
Qed.

Lemma lstrip_head (s : str) (c : N) (u : str) :
  lstrip s = c :: u -> isspace c = false.
Proof.
  induction s as [|x s IH]; simpl; [discriminate|].
  destruct (isspace x) eqn:E; [exact IH|].
  intros H. injection H as -> _. exact E.
Qed.

Lemma rstrip_decomp (s : str) : exists w, all_space w /\ s = rstrip s ++ w.
Proof.
  destruct (lstrip_decomp (rev s)) as (w & Hw & Hs).
  exists (rev w). split; [now apply all_space_rev|].
  unfold rstrip. rewrite <- rev_app_distr, <- Hs. now rewrite rev_involutive.
Qed.

Lemma rstrip_last (s u : str) (c : N) :
  rstrip s = u ++ [c] -> isspace c = false.
Proof.
  unfold rstrip. intros H. apply (f_equal (@rev N)) in H.
  rewrite rev_involutive, rev_app_distr in H. simpl in H.
  now apply lstrip_head in H.
Qed.

Lemma strip_decomp (s : str) :
  exists w1 w2, all_space w1 /\ all_space w2 /\ s = w1 ++ strip s ++ w2.
Proof.
  destruct (lstrip_decomp s) as (w1 & H1 & E1).
  destruct (rstrip_decomp (lstrip s)) as (w2 & H2 & E2).
  exists w1, w2. repeat split; try assumption.
  unfold strip. now rewrite <- E2.
Qed.

Lemma strip_trimmed (s : str) : trimmed (strip s).
Proof.
  split.
  - intros c u H. unfold strip in H.
    destruct (rstrip_decomp (lstrip s)) as (w & _ & E).
    rewrite H in E. simpl in E. now apply lstrip_head in E.
  - intros u c H. unfold strip in H. now apply rstrip_last in H.
Qed.

Lemma strip_strip (s : str) : strip (strip s) = strip s.
Proof.
  destruct (strip_decomp s) as (w1 & w2 & H1 & H2 & E).
  rewrite E at 2. now rewrite strip_padded.
Qed.

End StripShape.

(** X1. [strip] splits a string into leading whitespace, the result, and
    trailing whitespace; the result neither begins nor ends with a
    whitespace character, and stripping it again changes nothing. *)
Theorem X1_strip_trims_and_is_idempotent (s : str) :
  (exists w1 w2, all_space w1 /\ all_space w2 /\ s = w1 ++ strip s ++ w2) /\
  trimmed (strip s) /\
  strip (strip s) = strip s.
Proof.
  split; [apply strip_decomp|]. split; [apply strip_trimmed | apply strip_strip].
Qed.

Lemma row_key_swap (a b : str) :
  EvaluateSmall.make_key a b = EvaluateSmall.make_key b a.
Proof. rewrite !make_key_unfold. now rewrite (sorted2_comm (strip a)). Qed.

Lemma analyze_key_is_row_key (r : PathRow) :
  AnalyzeResults.make_key r = EvaluateSmall.row_key r.
Proof. now destruct r. Qed.

(** X2. The key is the same whether or not the paths were stripped
    beforehand, as the loader of [evaluate_small_experiment.py] does; it is
    the two stripped paths joined by the separator, the one that is not
    larger first. *)
Theorem X2_make_key_of_stripped_paths (a b : str) :
  EvaluateSmall.make_key (strip a) (strip b) = EvaluateSmall.make_key a b /\
  AnalyzeResults.make_key (mkPathRow (strip a) (strip b))
  = AnalyzeResults.make_key (mkPathRow a b) /\
  exists f s, EvaluateSmall.make_key a b = fmt_key f s /\
              lt s f = false /\
              same_pair f s (strip a) (strip b).
Proof.
  assert (E : EvaluateSmall.make_key (strip a) (strip b)
              = EvaluateSmall.make_key a b).
  { rewrite !make_key_unfold. now rewrite !strip_strip. }
  split; [exact E|]. split; [exact E|].
  rewrite make_key_unfold. unfold sorted2, same_pair.
  destruct (lt (strip b) (strip a)) eqn:L.
  - exists (strip b), (strip a). simpl. split; [reflexivity|].
    split; [now apply lt_asym | auto].
  - exists (strip a), (strip b). simpl. auto.
Qed.

(** ** More on the merge *)

Section MergeMore.

Lemma drop_dups_distinct (rows : list (str * Q)) :
  forall seen,
    (forall k, In k (map fst rows) -> existsb (Pandas.key_eqb k) seen = false) ->
    NoDup (map fst rows) ->
    Pandas.drop_dups seen rows = rows.
Proof.
  induction rows as [|[k s] rows IH]; intros seen Hs Hn; simpl; [reflexivity|].
  simpl in Hs, Hn. inversion Hn as [|? ? Hk Hn']; subst.
  rewrite (Hs k) by now left. f_equal. apply IH; [|exact Hn'].
  intros k' Hk'. simpl. rewrite (Hs k') by now right.
  rewrite orb_false_r.
  destruct (Pandas.key_eqb k' k) eqn:E; [|reflexivity].
  apply key_eqb_eq in E. subst k'. contradiction.
Qed.

Lemma system_df_keys (system : list ScoredPair) :
  map fst (map (fun s => (EvaluateSmall.row_key (s_paths s), s_score s)) system)
  = system_keys system.
Proof. unfold system_keys. rewrite map_map. reflexivity. Qed.

Lemma analyze_merge_unfold (gold : list GoldPair) (system : list ScoredPair) :
  AnalyzeResults.merge gold system
  = Pandas.fillna
      (Pandas.merge_left
         (map (fun g => (g, EvaluateSmall.row_key (g_paths g))) gold)
         (map (fun s => (EvaluateSmall.row_key (s_paths s), s_score s)) system)).
Proof.
  unfold AnalyzeResults.merge.
  rewrite (map_ext (fun g => (g, AnalyzeResults.make_key (g_paths g)))
                   (fun g => (g, EvaluateSmall.row_key (g_paths g))))
    by (intros g; now rewrite analyze_key_is_row_key).
  rewrite (map_ext (fun s => (AnalyzeResults.make_key (s_paths s), s_score s))
                   (fun s => (EvaluateSmall.row_key (s_paths s), s_score s)))
    by (intros s; now rewrite analyze_key_is_row_key).
  reflexivity.
Qed.

End MergeMore.

(** X3. When no key occurs twice in the system output, the merges of the
    two scripts return the same records. *)
Theorem X3_merges_agree_on_distinct_keys
        (gold : list GoldPair) (system : list ScoredPair) :
  NoDup (system_keys system) ->
  AnalyzeResults.merge gold system = EvaluateSmall.merge gold system.
Proof.
  intros Hn. rewrite analyze_merge_unfold. unfold EvaluateSmall.merge.
  unfold Pandas.drop_duplicates. rewrite drop_dups_distinct; [reflexivity| |].
  - reflexivity.
  - now rewrite system_df_keys.
Qed.

Lemma X3_witness :
  AnalyzeResults.merge swapped_gold swapped_system
  = EvaluateSmall.merge swapped_gold swapped_system.
Proof.
  apply (@X3_merges_agree_on_distinct_keys swapped_gold swapped_system).
  vm_compute. repeat constructor; simpl; intuition discriminate.
Defined.

Section MergeRows.

Variable system : list ScoredPair.

Let right := map (fun s => (EvaluateSmall.row_key (s_paths s), s_score s)) system.

(** The records the left join of [analyze_results.py] makes of one gold
    row. *)
Lemma analyze_rows_of_gold (g : GoldPair) (r : MergedRecord) :
  In r (Pandas.fillna
          (match Pandas.matches (EvaluateSmall.row_key (g_paths g)) right with
           | [] => [((g, EvaluateSmall.row_key (g_paths g)), None)]
           | ms => map (fun kr => ((g, EvaluateSmall.row_key (g_paths g)),
                                   Some (snd kr))) ms
           end)) ->
  from_gold g r /\ score_from_system system r.
Proof.
  set (k := EvaluateSmall.row_key (g_paths g)).
  destruct (Pandas.matches k right) as [|m ms] eqn:E.
  - simpl. intros [<-|[]]. split; [now repeat split|].
    right. split; [reflexivity|]. simpl. intros s Hs Hk.
    assert (I : In (EvaluateSmall.row_key (s_paths s), s_score s)
                   (Pandas.matches k right)).
    { apply filter_In. split.
      - unfold right. apply in_map_iff. now exists s.
      - simpl. now apply key_eqb_eq. }
    rewrite E in I. exact I.
  - rewrite <- E. clear E. unfold Pandas.fillna. rewrite map_map.
    intros H. apply in_map_iff in H. destruct H as (kr & <- & Hkr).
    split; [now repeat split|].
    left. apply filter_In in Hkr. destruct Hkr as [Hin Hk].
    unfold right in Hin. apply in_map_iff in Hin.
    destruct Hin as (s & <- & Hs). simpl in Hk. apply key_eqb_eq in Hk.
    exists s. now repeat split.
Qed.

Lemma analyze_rows_of_gold_nonempty (g : GoldPair) :
  exists r,
    In r (Pandas.fillna
            (match Pandas.matches (EvaluateSmall.row_key (g_paths g)) right with
             | [] => [((g, EvaluateSmall.row_key (g_paths g)), None)]
             | ms => map (fun kr => ((g, EvaluateSmall.row_key (g_paths g)),
                                     Some (snd kr))) ms
             end)).
Proof.
  destruct (Pandas.matches _ right) as [|m ms]; simpl; eexists; now left.
Qed.

Lemma analyze_merge_in (gold : list GoldPair) (r : MergedRecord) :
  In r (AnalyzeResults.merge gold system) ->
  exists g, In g gold /\ from_gold g r /\ score_from_system system r.
Proof.
  rewrite analyze_merge_unfold. fold right.
  induction gold as [|g gold IH]; [easy|].
  cbn [map]. rewrite merge_left_cons, fillna_app. cbn [snd].
  intros H. apply in_app_or in H. destruct H as [H|H].
  - apply analyze_rows_of_gold in H. exists g. split; [now left | exact H].
  - destruct (IH H) as (g' & Hg' & Hr). exists g'. split; [now right | exact Hr].
Qed.

Lemma analyze_merge_covers (gold : list GoldPair) (g : GoldPair) :
  In g gold ->
  exists r, In r (AnalyzeResults.merge gold system) /\ from_gold g r.
Proof.
  rewrite analyze_merge_unfold. fold right.
  induction gold as [|g' gold IH]; [easy|].
  cbn [map]. rewrite merge_left_cons, fillna_app. cbn [snd].
  intros [->|Hg].
  - destruct (analyze_rows_of_gold_nonempty g) as [r Hr]. exists r.
    split; [apply in_or_app; now left|].
    now apply analyze_rows_of_gold in Hr.
  - destruct (IH Hg) as (r & Hr & Hf). exists r.
    split; [apply in_or_app; now right | exact Hf].
Qed.

Lemma analyze_merge_length (gold : list GoldPair) :
  (List.length gold <= List.length (AnalyzeResults.merge gold system))%nat.
Proof.
  rewrite analyze_merge_unfold. fold right.
  induction gold as [|g gold IH]; [simpl; lia|].
  cbn [map]. rewrite merge_left_cons, fillna_app, length_app. cbn [snd List.length].
  destruct (analyze_rows_of_gold_nonempty g) as [r Hr].
  destruct (Pandas.fillna _) as [|x l] eqn:E in Hr |- *; [easy|].
  simpl. lia.
Qed.

Lemma evaluate_merge_in (gold : list GoldPair) (r : MergedRecord) :
  In r (EvaluateSmall.merge gold system) ->
  exists g, In g gold /\ from_gold g r /\ score_from_system system r.
Proof.
  rewrite evaluate_merge_rows. intros H. apply in_map_iff in H.
  destruct H as (g & <- & Hg). exists g. split; [exact Hg|].
  split; [now repeat split|].
  unfold score_from_system, merged_of, first_score. cbn [m_score m_key].
  destruct (find _ system) as [s|] eqn:F.
  - apply find_some in F. destruct F as [Hs Hk]. apply key_eqb_eq in Hk.
    left. now exists s.
  - right. split; [reflexivity|]. intros s Hs Hk.
    pose proof (find_none _ _ F s Hs) as N. simpl in N.
    rewrite Hk, key_eqb_refl in N. discriminate.
Qed.

End MergeRows.

(** X4. The merge of [analyze_results.py] never drops a gold row: it has
    at least as many records as there are gold rows, every gold row has a
    record with its paths, label and key, and every record comes from a
    gold row. *)
Theorem X4_analyze_merge_keeps_every_gold_row
        (gold : list GoldPair) (system : list ScoredPair) :
  (List.length gold <= List.length (AnalyzeResults.merge gold system))%nat /\
  (forall g, In g gold ->
             exists r, In r (AnalyzeResults.merge gold system) /\ from_gold g r) /\
  (forall r, In r (AnalyzeResults.merge gold system) ->
             exists g, In g gold /\ from_gold g r).
Proof.
  split; [apply analyze_merge_length|]. split.
  - intros g. apply analyze_merge_covers.
  - intros r Hr. destruct (analyze_merge_in _ _ _ Hr) as (g & Hg & Hf & _).
    now exists g.
Qed.

(** X5. In both scripts a merged score is never invented: it is the score
    of a system row with the record's key, or it is 0.0 and no system row
    has that key. *)
Theorem X5_merged_score_comes_from_system
        (gold : list GoldPair) (system : list ScoredPair) (r : MergedRecord) :
  In r (AnalyzeResults.merge gold system) \/ In r (EvaluateSmall.merge gold system) ->
  score_from_system system r.
Proof.
  intros [H|H].
  - now destruct (analyze_merge_in _ _ _ H) as (g & _ & _ & Hs).
  - now destruct (evaluate_merge_in _ _ _ H) as (g & _ & _ & Hs).
Qed.

Lemma X5_witness :
  score_from_system dup_system
    (mkMerged (lit "a") (lit "b") true (lit "a|b") 0.1).
Proof.
  apply (@X5_merged_score_comes_from_system dup_gold dup_system).
  left. vm_compute. auto.
Defined.

Section SwapFacts.

Lemma row_key_swap_scored (s : ScoredPair) :
  EvaluateSmall.row_key (s_paths (swap_scored s)) = EvaluateSmall.row_key (s_paths s).
Proof. unfold EvaluateSmall.row_key, swap_scored. simpl. apply row_key_swap. Qed.

Lemma row_key_swap_gold (g : GoldPair) :
  EvaluateSmall.row_key (g_paths (swap_gold g)) = EvaluateSmall.row_key (g_paths g).
Proof. unfold EvaluateSmall.row_key, swap_gold. simpl. apply row_key_swap. Qed.

Lemma system_df_swap (system : list ScoredPair) :
  map (fun s => (EvaluateSmall.row_key (s_paths s), s_score s))
      (map swap_scored system)
  = map (fun s => (EvaluateSmall.row_key (s_paths s), s_score s)) system.
Proof.
  rewrite map_map. apply map_ext. intros s.
  now rewrite row_key_swap_scored.
Qed.

Lemma joined_columns_app (a b : list (GoldPair * str * option Q)) :
  map joined_columns (Pandas.fillna (a ++ b))
  = map joined_columns (Pandas.fillna a) ++ map joined_columns (Pandas.fillna b).
Proof. now rewrite fillna_app, map_app. Qed.

Lemma analyze_merge_swap_gold (gold : list GoldPair) (system : list ScoredPair) :
  map joined_columns (AnalyzeResults.merge (map swap_gold gold) system)
  = map joined_columns (AnalyzeResults.merge gold system).
Proof.
  rewrite !analyze_merge_unfold.
  induction gold as [|g gold IH]; [reflexivity|].
  cbn [map]. rewrite !merge_left_cons, !joined_columns_app, IH. f_equal.
  cbn [snd]. rewrite row_key_swap_gold.
  destruct (Pandas.matches _ _) as [|m ms]; [reflexivity|].
  unfold Pandas.fillna. rewrite !map_map. apply map_ext. reflexivity.
Qed.

Lemma evaluate_merge_swap_gold (gold : list GoldPair) (system : list ScoredPair) :
  map joined_columns (EvaluateSmall.merge (map swap_gold gold) system)
  = map joined_columns (EvaluateSmall.merge gold system).
Proof.
  rewrite !evaluate_merge_rows, !map_map. apply map_ext. intros g.
  unfold joined_columns, merged_of. cbn [m_label m_key m_score].
  now rewrite row_key_swap_gold.
Qed.

End SwapFacts.

(** X6. The column order of a pair does not matter to the join.
    Exchanging [path_a] and [path_b] in the system rows leaves the merged
    records of both scripts unchanged; exchanging them in the gold rows
    changes only the two path columns of the records. *)
Theorem X6_merge_ignores_column_order
        (gold : list GoldPair) (system : list ScoredPair) :
  AnalyzeResults.merge gold (map swap_scored system)
  = AnalyzeResults.merge gold system /\
  EvaluateSmall.merge gold (map swap_scored system)
  = EvaluateSmall.merge gold system /\
  map joined_columns (AnalyzeResults.merge (map swap_gold gold) system)
  = map joined_columns (AnalyzeResults.merge gold system) /\
  map joined_columns (EvaluateSmall.merge (map swap_gold gold) system)
  = map joined_columns (EvaluateSmall.merge gold system).
Proof.
  repeat split.
  - rewrite !analyze_merge_unfold. now rewrite system_df_swap.
  - unfold EvaluateSmall.merge. now rewrite system_df_swap.
  - apply analyze_merge_swap_gold.
  - apply evaluate_merge_swap_gold.
Qed.

Lemma filter_label_count (merged : list MergedRecord) :
  List.length (filter m_label merged)
  = List.length (filter (fun b : bool => b) (map m_label merged)).
Proof. now rewrite filter_map_length. Qed.

Lemma count_true_blocks (n m : nat) :
  List.length (filter (fun b : bool => b) (repeat true n ++ repeat false m)) = n.
Proof.
  rewrite filter_app, length_app.
  assert (A : List.length (filter (fun b : bool => b) (repeat true n)) = n).
  { induction n as [|n IH]; simpl; [reflexivity | now rewrite IH]. }
  assert (B : List.length (filter (fun b : bool => b) (repeat false m)) = 0%nat).
  { induction m as [|m IH]; simpl; [reflexivity | exact IH]. }
  lia.
Qed.

Lemma concat_gold_labels (pos neg : list PathRow) :
  map g_label (concat_gold pos neg)
  = repeat true (List.length pos) ++ repeat false (List.length neg).
Proof.
  unfold concat_gold. rewrite map_app, !map_map. simpl. f_equal.
  - induction pos as [|p pos IH]; simpl; [reflexivity | now rewrite IH].
  - induction neg as [|p neg IH]; simpl; [reflexivity | now rewrite IH].
Qed.

(** X7. In [evaluate_small_experiment.py] the merged table lists the pairs
    of the positive file with label 1, then the pairs of the negative file
    with label 0, whatever the system output is; at every threshold
    TP + FN is the number of pairs of the positive file. *)
Theorem X7_evaluate_positives_are_the_positive_file
        (pos neg : list PathRow) (system : list ScoredPair) (t : Q) :
  let merged := EvaluateSmall.merge (concat_gold pos neg) system in
  map m_label merged
  = repeat true (List.length pos) ++ repeat false (List.length neg) /\
  (n_tp merged t + n_fn merged t)%Z = Z.of_nat (List.length pos).
Proof.
  cbn zeta.
  destruct (evaluate_merge_complete (concat_gold pos neg) system) as [_ L].
  rewrite concat_gold_labels in L. split; [exact L|].
  rewrite tp_fn_positives, filter_label_count, L. now rewrite count_true_blocks.
Qed.

(** ** More on the sweep *)

Section SweepMore.

Lemma prf_divide_range (a d : Z) :
  (0 <= a <= d)%Z -> 0 <= Sklearn.prf_divide a d <= 1.
Proof.
  intros [Ha Hd]. unfold Sklearn.prf_divide.
  destruct (Z.eqb_spec d 0) as [E|E]; [split; [apply Qle_refl | easy]|].
  assert (P : 0 < inject_Z d).
  { change 0 with (inject_Z 0). rewrite <- Zlt_Qlt. lia. }
  split.
  - apply Qle_shift_div_l; [exact P|]. rewrite Qmult_0_l.
    change 0 with (inject_Z 0). rewrite <- Zle_Qle. exact Ha.
  - apply Qle_shift_div_r; [exact P|]. rewrite Qmult_1_l.
    rewrite <- Zle_Qle. exact Hd.
Qed.






Lemma counts_below_all (merged : list MergedRecord) (t : Q) :
  (forall r, In r merged -> t <= m_score r) ->
  n_tp merged t = n_pos merged /\
  (n_tp merged t + n_fp merged t)%Z = n_all merged /\
  n_fn merged t = 0%Z.
Proof.
  intros H. unfold n_tp, n_fp, n_fn, n_pos, n_all.
  rewrite (@filter_all _ (fun r => m_label r && Qle_bool t (m_score r)) m_label).
  2:{ intros r Hr. apply H, Qle_bool_iff in Hr. rewrite Hr. apply andb_true_r. }
  rewrite (@filter_all _ (fun r => negb (m_label r) && Qle_bool t (m_score r))
                       (fun r => negb (m_label r))).
  2:{ intros r Hr. apply H, Qle_bool_iff in Hr. rewrite Hr. apply andb_true_r. }
  rewrite (@filter_none _ (fun r => m_label r && negb (Qle_bool t (m_score r)))).
  2:{ intros r Hr. apply H, Qle_bool_iff in Hr. rewrite Hr. apply andb_false_r. }
  pose proof (filter_length m_label merged). repeat split; lia.
Qed.

End SweepMore.




(** X11. At a threshold that no score is below, every record is predicted
    positive: if some record is positive, recall is 1 and precision is the
    share of positive records. *)
Theorem X11_sweep_below_every_score (merged : list MergedRecord) (t : Q) :
  (forall r, In r merged -> t <= m_score r) ->
  (0 < n_pos merged)%Z ->
  EvaluateSmall.row_r (EvaluateSmall.sweep_row merged t) == 1 /\
  EvaluateSmall.row_p (EvaluateSmall.sweep_row merged t)
  == inject_Z (n_pos merged) / inject_Z (n_all merged).
Proof.
  intros H Hpos.
  destruct (sweep_row_counts merged t) as (_ & Ep & Er & _).
  rewrite Ep, Er.
  destruct (@counts_below_all merged t H) as (E1 & E2 & E3).
  rewrite E2, E3, E1, Z.add_0_r. unfold Sklearn.prf_divide.
  assert (Hall : (n_pos merged <= n_all merged)%Z).
  { unfold n_pos, n_all. apply inj_le, filter_length_le. }
  destruct (Z.eqb_spec (n_pos merged) 0); [lia|].
  destruct (Z.eqb_spec (n_all merged) 0); [lia|].
  split; [|reflexivity].
  assert (D : ~ inject_Z (n_pos merged) == 0).
  { intros C. apply (proj1 (inject_Z_injective (n_pos merged) 0)) in C. lia. }
  field. exact D.
Qed.

Lemma X11_witness :
  EvaluateSmall.row_r (EvaluateSmall.sweep_row overlap_records 0) == 1 /\
  EvaluateSmall.row_p (EvaluateSmall.sweep_row overlap_records 0)
  == inject_Z (n_pos overlap_records) / inject_Z (n_all overlap_records).
Proof.
  apply (@X11_sweep_below_every_score overlap_records 0).
  - intros r [<-|[<-|[]]]; unfold Qle; simpl; lia.
  - vm_compute. reflexivity.
Defined.


(** ** More on the curve *)

Section CurveMore.

Lemma clf_walk_length (l : list (bool * Q)) :
  forall i tp, (List.length (Sklearn.clf_walk i tp l) <= List.length l)%nat.
Proof.
  induction l as [|[y s] rest IH]; intros i tp; [simpl; lia|].
  cbn [Sklearn.clf_walk].
  destruct rest as [|[y' s'] rest']; [simpl; lia|].
  specialize (IH (i + 1)%Z (tp + Sklearn.b2z y)%Z).
  destruct (Qeq_bool s s'); cbn [List.length] in *; lia.
Qed.

(** Every score is, up to equality of rationals, a threshold of the walk. *)
Lemma clf_walk_covers (l : list (bool * Q)) :
  forall i tp x, In x l ->
    exists p, In p (Sklearn.clf_walk i tp l) /\ Sklearn.thr_of p == snd x.
Proof.
  induction l as [|[y s] rest IH]; intros i tp x Hx; [easy|].
  cbn [Sklearn.clf_walk].
  destruct rest as [|[y' s'] rest'].
  - destruct Hx as [<-|[]]. eexists. split; [now left | reflexivity].
  - destruct (Qeq_bool s s') eqn:E.
    + destruct Hx as [<-|Hx].
      * destruct (IH (i + 1)%Z (tp + Sklearn.b2z y)%Z (y', s')) as (p & Hp & Ht);
          [now left|].
        exists p. split; [exact Hp|]. simpl in *.
        apply Qeq_bool_eq in E. now rewrite Ht, E.
      * now apply IH.
    + destruct Hx as [<-|Hx].
      * eexists. split; [now left | reflexivity].
      * destruct (IH (i + 1)%Z (tp + Sklearn.b2z y)%Z x Hx) as (p & Hp & Ht).
        exists p. split; [now right | exact Ht].
Qed.

Lemma nth_0_rev (A : Type) (l : list A) (d : A) :
  nth 0 (rev l ++ [d]) d = last l d.
Proof.
  destruct l as [|x l] using rev_ind; [reflexivity|].
  rewrite rev_app_distr, last_last. reflexivity.
Qed.

Lemma in_samples (merged : list MergedRecord) (y : bool) (s : Q) :
  In (y, s) (samples merged) ->
  exists r, In r merged /\ m_label r = y /\ m_score r = s.
Proof.
  rewrite samples_map. intros H. apply in_map_iff in H.
  destruct H as (r & E & Hr). injection E as <- <-. now exists r.
Qed.

Lemma pr_curve_nonempty (merged : list MergedRecord) (c : Sklearn.Curve) :
  EvaluateSmall.pr_curve merged = Some c -> merged <> [].
Proof. intros Hc ->. discriminate Hc. Qed.

Lemma pr_curve_combine_nonempty (merged : list MergedRecord) (c : Sklearn.Curve) :
  EvaluateSmall.pr_curve merged = Some c ->
  combine (map m_label merged) (map m_score merged) <> [].
Proof.
  intros Hc. apply pr_curve_nonempty in Hc. destruct merged; [easy | discriminate].
Qed.

Lemma pr_curve_arrays (merged : list MergedRecord) (c : Sklearn.Curve) :
  EvaluateSmall.pr_curve merged = Some c ->
  let pts := Sklearn.binary_clf_curve (map m_label merged) (map m_score merged) in
  Sklearn.thresholds c = rev (map Sklearn.thr_of pts) /\
  Sklearn.precision c
  = rev (map (fun p => Sklearn.prf_divide (Sklearn.tps_of p)
                         (Sklearn.tps_of p + Sklearn.fps_of p)) pts) ++ [1] /\
  Sklearn.recall c
  = rev (if (n_pos merged =? 0)%Z then map (fun _ => 1) pts
         else map (fun p => inject_Z (Sklearn.tps_of p) / inject_Z (n_pos merged))
                  pts) ++ [0].
Proof.
  intros Hc pts.
  pose proof (@pr_curve_nonempty merged c Hc) as Hm.
  pose proof (@pr_curve_combine_nonempty merged c Hc) as Hne.
  unfold EvaluateSmall.pr_curve, Sklearn.precision_recall_curve in Hc.
  destruct (combine (map m_label merged) (map m_score merged)); [easy|].
  injection Hc as <-. cbn [Sklearn.thresholds Sklearn.precision Sklearn.recall].
  rewrite (binary_clf_curve_last_tps Hm). fold pts.
  unfold n_pos. auto.
Qed.

Lemma pts_length (merged : list MergedRecord) (c : Sklearn.Curve) :
  EvaluateSmall.pr_curve merged = Some c ->
  let pts := Sklearn.binary_clf_curve (map m_label merged) (map m_score merged) in
  (1 <= List.length pts <= List.length merged)%nat.
Proof.
  intros Hc pts. split.
  - pose proof (pts_nonempty _ _ (@pr_curve_combine_nonempty merged c Hc)) as H.
    fold pts in H. destruct pts; [easy | simpl; lia].
  - unfold pts, Sklearn.binary_clf_curve.
    eapply Nat.le_trans; [apply clf_walk_length|].
    rewrite sort_desc_length. fold (samples merged).
    rewrite samples_map, length_map. lia.
Qed.

Lemma pr_curve_shape (merged : list MergedRecord) (c : Sklearn.Curve) :
  EvaluateSmall.pr_curve merged = Some c -> curve_shape merged c.
Proof.
  intros Hc.
  destruct (@pr_curve_arrays merged c Hc) as (Et & Ep & Er).
  pose proof (@pts_length merged c Hc) as Hl. cbn zeta in Hl.
  pose proof (@pr_curve_nonempty merged c Hc) as Hm.
  set (pts := Sklearn.binary_clf_curve (map m_label merged) (map m_score merged)) in *.
  unfold curve_shape. cbn zeta. rewrite Et, Ep, Er.
  rewrite !length_app, !length_rev, !length_map. cbn [List.length].
  assert (Lr : List.length
                 (if (n_pos merged =? 0)%Z then map (fun _ : Z * Z * Q => 1) pts
                  else map (fun p => inject_Z (Sklearn.tps_of p)
                                     / inject_Z (n_pos merged)) pts)
               = List.length pts).
  { destruct (_ =? _)%Z; apply length_map. }
  rewrite Lr.
  split; [exact Hl|]. split; [lia|]. split; [lia|].
  split.
  { rewrite app_nth2; rewrite length_rev, length_map; [|lia].
    now rewrite Nat.sub_diag. }
  split.
  { rewrite app_nth2; rewrite length_rev, Lr; [|lia].
    now rewrite Nat.sub_diag. }
  assert (Hp : pts <> []) by (destruct pts; [simpl in Hl; lia | easy]).
  rewrite nth_0_rev.
  destruct (Z.eqb_spec (n_pos merged) 0) as [E|E].
  - clear - Hp. induction pts as [|x [|y l] IH]; [easy | reflexivity|].
    apply IH. easy.
  - set (d := (0%Z, 0%Z, 0) : Z * Z * Q).
    set (f := fun p : Z * Z * Q => inject_Z (Sklearn.tps_of p) / inject_Z (n_pos merged)).
    assert (Hlast : last (map f pts) 0 = f (last pts d)).
    { clear - Hp. induction pts as [|x [|y l] IH]; [easy | reflexivity|].
      apply IH. easy. }
    rewrite Hlast. unfold f.
    pose proof (binary_clf_curve_last_tps Hm) as L.
    fold pts in L. change 0%Z with (Sklearn.tps_of d) in L at 1.
    rewrite last_map_eq in L. rewrite L. fold (n_pos merged).
    assert (D : ~ inject_Z (n_pos merged) == 0).
    { intros C. apply (proj1 (inject_Z_injective (n_pos merged) 0)) in C. lia. }
    field. exact D.
Qed.

Lemma pr_curve_thresholds (merged : list MergedRecord) (c : Sklearn.Curve) :
  EvaluateSmall.pr_curve merged = Some c -> thresholds_are_scores merged c.
Proof.
  intros Hc.
  destruct (@pr_curve_arrays merged c Hc) as (Et & _ & _).
  unfold thresholds_are_scores. rewrite Et. split; [|split].
  - intros t Ht. apply in_rev in Ht. apply in_map_iff in Ht.
    destruct Ht as (p & <- & Hp).
    unfold Sklearn.binary_clf_curve in Hp. fold (samples merged) in Hp.
    apply clf_walk_thr_in in Hp. destruct Hp as [y Hy].
    apply (Permutation_in _ (sort_desc_perm (samples merged))) in Hy.
    apply in_samples in Hy. destruct Hy as (r & Hr & _ & Hs). now exists r.
  - intros r Hr.
    assert (I : In (m_label r, m_score r) (Sklearn.sort_desc (samples merged))).
    { apply (Permutation_in _ (Permutation_sym (sort_desc_perm (samples merged)))).
      rewrite samples_map. apply in_map_iff. now exists r. }
    destruct (clf_walk_covers _ 0 0 _ I) as (p & Hp & Ht).
    exists (Sklearn.thr_of p). split; [|exact Ht].
    apply -> in_rev. apply in_map. exact Hp.
  - rewrite <- Et. apply (curve_thresholds_increasing _ _ (@pr_curve_combine_nonempty merged c Hc)).
    exact Hc.
Qed.

End CurveMore.

(** X12. The arrays that [precision_recall_curve] returns for the merged
    table: between one threshold and as many as there are records, one
    more precision and recall than thresholds, a final point of precision
    1 and recall 0, and recall 1 at the first point. *)
Theorem X12_curve_shape (merged : list MergedRecord) (c : Sklearn.Curve) :
  EvaluateSmall.pr_curve merged = Some c -> curve_shape merged c.
Proof. apply pr_curve_shape. Qed.

Lemma X12_witness :
  exists c, EvaluateSmall.pr_curve tie_records = Some c /\ curve_shape tie_records c.
Proof.
  eexists. split; [vm_compute; reflexivity|].
  apply (@X12_curve_shape tie_records). vm_compute. reflexivity.
Defined.

(** X13. The thresholds of the curve are the distinct scores of the merged
    table: each threshold is the score of a record, each record's score is
    a threshold, and the thresholds increase strictly. *)
Theorem X13_curve_thresholds_are_the_scores
        (merged : list MergedRecord) (c : Sklearn.Curve) :
  EvaluateSmall.pr_curve merged = Some c -> thresholds_are_scores merged c.
Proof. apply pr_curve_thresholds. Qed.

Lemma X13_witness :
  exists c, EvaluateSmall.pr_curve tie_records = Some c /\
            thresholds_are_scores tie_records c.
Proof.
  eexists. split; [vm_compute; reflexivity|].
  apply (@X13_curve_thresholds_are_the_scores tie_records). vm_compute. reflexivity.
Defined.

(** X14. When some record is positive, each point of the curve but the
    final one is the row of the sweep at that point's threshold: the same
    precision and the same recall. *)
Theorem X14_curve_points_are_sweep_rows
        (merged : list MergedRecord) (c : Sklearn.Curve) (i : nat) :
  EvaluateSmall.pr_curve merged = Some c ->
  filter m_label merged <> [] ->
  (i < List.length (Sklearn.thresholds c))%nat ->
  curve_point_is_sweep_row merged c i.
Proof.
  intros Hc Hpos Hi. split.
  - now apply curve_precision_is_sweep_precision.
  - now apply curve_recall_is_sweep_recall.
Qed.

Lemma X14_witness :
  exists c, EvaluateSmall.pr_curve tie_records = Some c /\
            curve_point_is_sweep_row tie_records c 1.
Proof.
  eexists. split; [vm_compute; reflexivity|].
  apply (@X14_curve_points_are_sweep_rows tie_records).
  - vm_compute. reflexivity.
  - discriminate.
  - vm_compute. lia.
Defined.

Lemma curve_recall_without_positives
      (merged : list MergedRecord) (c : Sklearn.Curve) (i : nat) :
  EvaluateSmall.pr_curve merged = Some c ->
  filter m_label merged = [] ->
  (i < List.length (Sklearn.thresholds c))%nat ->
  nth i (Sklearn.recall c) 0 = 1.
Proof.
  intros Hc Hpos Hi.
  destruct (@pr_curve_arrays merged c Hc) as (Et & _ & Er).
  assert (Z0 : n_pos merged = 0%Z) by (unfold n_pos; now rewrite Hpos).
  rewrite Z0 in Er. simpl in Er. rewrite Er.
  rewrite Et, length_rev, length_map in Hi.
  rewrite app_nth1 by (now rewrite length_rev, length_map).
  rewrite <- map_rev.
  rewrite (@nth_map_lt _ _ (fun _ => 1) _ i (0%Z, 0%Z, 0) 0); [reflexivity|].
  now rewrite length_rev.
Qed.

(** X15. When no record is positive the two recalls differ: the curve
    reports recall 1 at every threshold, the sweep reports recall 0 at
    every threshold. *)
Theorem X15_recall_without_positives
        (merged : list MergedRecord) (c : Sklearn.Curve) (i : nat) (t : Q) :
  EvaluateSmall.pr_curve merged = Some c ->
  filter m_label merged = [] ->
  (i < List.length (Sklearn.thresholds c))%nat ->
  nth i (Sklearn.recall c) 0 = 1 /\
  EvaluateSmall.row_r (EvaluateSmall.sweep_row merged t) = 0.
Proof.
  intros Hc Hpos Hi. split.
  - now apply (@curve_recall_without_positives merged c i).
  - destruct (sweep_row_counts merged t) as (_ & _ & -> & _).
    rewrite tp_fn_positives, Hpos. reflexivity.
Qed.

Lemma X15_witness :
  exists c, EvaluateSmall.pr_curve negatives_only = Some c /\
            nth 0 (Sklearn.recall c) 0 = 1 /\
            EvaluateSmall.row_r (EvaluateSmall.sweep_row negatives_only 0.1) = 0.
Proof.
  eexists. split; [vm_compute; reflexivity|].
  apply (@X15_recall_without_positives negatives_only _ 0%nat 0.1).
  - vm_compute. reflexivity.
  - reflexivity.
  - vm_compute. lia.
Defined.

(** ** More on the selected point *)

Section BestMore.

Lemma nth_zip_with (f : Q -> Q -> Q) (a b : list Q) :
  forall k, (k < List.length a)%nat -> (k < List.length b)%nat ->
            nth k (Numpy.zip_with f a b) 0 = f (nth k a 0) (nth k b 0).
Proof.
  revert b; induction a as [|x a IH]; intros [|y b] [|k] Ha Hb;
    simpl in *; try lia; [reflexivity|].
  apply IH; lia.
Qed.

Lemma but_last_length (l : list Q) :
  List.length (Numpy.but_last l) = (List.length l - 1)%nat.
Proof.
  unfold Numpy.but_last. induction l as [|x [|y l] IH]; simpl in *; lia.
Qed.

Lemma nth_but_last (l : list Q) (k : nat) :
  (S k < List.length l)%nat -> nth k (Numpy.but_last l) 0 = nth k l 0.
Proof.
  unfold Numpy.but_last. revert k.
  induction l as [|x [|y l] IH]; intros k H; simpl in H; try lia.
  destruct k as [|k]; [reflexivity|].
  change (removelast (x :: y :: l)) with (x :: removelast (y :: l)).
  cbn [nth]. apply IH. simpl. lia.
Qed.

Lemma argmax_some_lt (l : list Q) (k : nat) :
  Numpy.argmax l = Some k -> (k < List.length l)%nat.
Proof.
  intros H. assert (Hl : l <> []) by (intros ->; discriminate H).
  destruct (argmax_first_max Hl) as (k' & Hk' & Hlt & _). congruence.
Qed.

(** One entry of [f1_scores] for a precision and a recall in [0, 1]. *)
Lemma f1_entry_range (p r : Q) :
  0 <= p <= 1 -> 0 <= r <= 1 ->
  0 <= AnalyzeResults.f1_entry p r /\ AnalyzeResults.f1_entry p r < 1.
Proof.
  intros [Hp0 Hp1] [Hr0 Hr1]. unfold AnalyzeResults.f1_entry.
  change (1e-10) with (1 # 10000000000).
  assert (D : 0 < p + r + (1 # 10000000000)) by lra.
  assert (M0 : 0 <= p * r) by (now apply Qmult_le_0_compat).
  assert (M1 : p * r <= p).
  { rewrite <- (Qmult_1_r p) at 2. rewrite !(Qmult_comm p).
    now apply Qmult_le_compat_r. }
  assert (M2 : p * r <= r).
  { rewrite <- (Qmult_1_l r) at 2. now apply Qmult_le_compat_r. }
  split.
  - apply Qle_shift_div_l; [exact D | lra].
  - apply Qlt_shift_div_r; [exact D | lra].
Qed.

(** What [best_point] returned, read back from its result. *)
Lemma best_point_fields (merged : list MergedRecord) (b : AnalyzeResults.OperatingPoint) :
  AnalyzeResults.best_point merged = Some b ->
  EvaluateSmall.pr_curve merged = Some (AnalyzeResults.curve b) /\
  AnalyzeResults.f1_scores b
  = Numpy.zip_with AnalyzeResults.f1_entry
      (Numpy.but_last (Sklearn.precision (AnalyzeResults.curve b)))
      (Numpy.but_last (Sklearn.recall (AnalyzeResults.curve b))) /\
  Numpy.argmax (AnalyzeResults.f1_scores b) = Some (AnalyzeResults.best_idx b) /\
  AnalyzeResults.best_f1 b
  = nth (AnalyzeResults.best_idx b) (AnalyzeResults.f1_scores b) 0 /\
  AnalyzeResults.best_thresh b
  = if (AnalyzeResults.best_idx b
        <? List.length (Sklearn.thresholds (AnalyzeResults.curve b)))%nat
    then nth (AnalyzeResults.best_idx b)
             (Sklearn.thresholds (AnalyzeResults.curve b)) 0
    else 0.5.
Proof.
  unfold AnalyzeResults.best_point, EvaluateSmall.pr_curve.
  destruct (Sklearn.precision_recall_curve _ _) as [c|]; [|discriminate].
  cbv zeta. destruct (Numpy.argmax _) as [k|] eqn:A; [|discriminate].
  intros H. injection H as <-. cbn. auto.
Qed.

End BestMore.

Lemma best_point_total (merged : list MergedRecord) :
  merged <> [] -> exists b, AnalyzeResults.best_point merged = Some b.
Proof.
  intros Hm. unfold AnalyzeResults.best_point.
  assert (Hne : combine (map m_label merged) (map m_score merged) <> []).
  { destruct merged; [easy | discriminate]. }
  destruct (curve_some _ _ Hne) as (c & Hc & _ & Hlp & Hlr & _).
  rewrite Hc. cbv beta iota zeta.
  pose proof (pts_nonempty _ _ Hne) as Hp.
  set (f1s := Numpy.zip_with _ _ _).
  assert (Hf : f1s <> []).
  { intros E. apply (f_equal (@List.length _)) in E. unfold f1s in E.
    rewrite zip_with_length in E; rewrite !but_last_length in *; [|lia].
    rewrite Hlp in E. simpl in E.
    destruct (Sklearn.binary_clf_curve _ _); [easy | discriminate]. }
  destruct (argmax_first_max Hf) as (k & -> & _). eexists. reflexivity.
Qed.

(** The threshold of [b] is the score of a record and its F1 lies in
    [0, 1). *)
Lemma best_point_sound (merged : list MergedRecord) (b : AnalyzeResults.OperatingPoint) :
  AnalyzeResults.best_point merged = Some b ->
  (exists r, In r merged /\ m_score r = AnalyzeResults.best_thresh b) /\
  0 <= AnalyzeResults.best_f1 b /\ AnalyzeResults.best_f1 b < 1.
Proof.
  intros Hb. destruct (@best_point_fields merged b Hb) as (Hc & Hf & Ha & Hbf & Hbt).
  set (c := AnalyzeResults.curve b) in *.
  set (k := AnalyzeResults.best_idx b) in *.
  pose proof (@pr_curve_shape merged c Hc) as (Hn & Hlp & Hlr & _).
  pose proof (@pr_curve_thresholds merged c Hc) as (Hts & _ & _).
  cbn zeta in *.
  assert (Hlen : List.length (AnalyzeResults.f1_scores b)
                 = List.length (Sklearn.thresholds c)).
  { rewrite Hf, zip_with_length; rewrite !but_last_length; lia. }
  assert (Hk : (k < List.length (Sklearn.thresholds c))%nat).
  { rewrite <- Hlen. now apply argmax_some_lt. }
  split.
  - apply Hts. rewrite Hbt, (proj2 (Nat.ltb_lt _ _) Hk). now apply nth_In.
  - rewrite Hbf, Hf.
    rewrite nth_zip_with by (rewrite but_last_length; lia).
    rewrite !nth_but_last by lia.
    apply f1_entry_range.
    + rewrite (@curve_precision_is_sweep_precision merged c k Hc Hk).
      destruct (sweep_row_counts merged (nth k (Sklearn.thresholds c) 0))
        as (_ & -> & _).
      pose proof (n_counts_nonneg merged (nth k (Sklearn.thresholds c) 0)).
      apply prf_divide_range. lia.
    + destruct (filter m_label merged) as [|x l] eqn:Hpos.
      * rewrite (@curve_recall_without_positives merged c k Hc Hpos Hk). lra.
      * assert (Hp : filter m_label merged <> []) by (rewrite Hpos; easy).
        rewrite (@curve_recall_is_sweep_recall merged c k Hc Hp Hk).
        destruct (sweep_row_counts merged (nth k (Sklearn.thresholds c) 0))
          as (_ & _ & -> & _).
        pose proof (n_counts_nonneg merged (nth k (Sklearn.thresholds c) 0)).
        apply prf_divide_range. lia.
Qed.

(** X16. On a non-empty merged table the point [analyze_results.py]
    reports is a point of the data: its threshold is the score of a merged
    record, so the default 0.5 is never used, and its F1 is at least 0 and
    strictly below 1, whatever the records are. *)
Theorem X16_best_point_is_a_score_and_f1_below_one (merged : list MergedRecord) :
  merged <> [] ->
  exists b, AnalyzeResults.best_point merged = Some b /\
            (exists r, In r merged /\ m_score r = AnalyzeResults.best_thresh b) /\
            0 <= AnalyzeResults.best_f1 b /\ AnalyzeResults.best_f1 b < 1.
Proof.
  intros Hm. destruct (best_point_total Hm) as [b Hb].
  exists b. split; [exact Hb | now apply best_point_sound].
Qed.

Lemma X16_witness :
  exists b, AnalyzeResults.best_point tie_records = Some b /\
            (exists r, In r tie_records /\ m_score r = AnalyzeResults.best_thresh b) /\
            0 <= AnalyzeResults.best_f1 b /\ AnalyzeResults.best_f1 b < 1.
Proof.
  apply (@X16_best_point_is_a_score_and_f1_below_one tie_records). discriminate.
Defined.

(** ** The report tables *)

Lemma take5_firstn (df : list MergedRecord) :
  EvaluateReport.take5 df = firstn 5 df.
Proof.
  unfold EvaluateReport.take5. cbv zeta.
  destruct (Nat.eqb_spec (Nat.min 5 (List.length df)) 0) as [Z|Z].
  - destruct df; [reflexivity | simpl in Z; lia].
  - destruct (Nat.leb_spec 5 (List.length df)) as [L|L]; [reflexivity|].
    rewrite Nat.min_r by lia. rewrite firstn_all. now rewrite firstn_all2 by lia.
Qed.

(** X17. [take5] returns the first five rows of a frame, or all of them
    when there are fewer, whichever of its branches is taken; applying it
    twice changes nothing. *)
Theorem X17_take5_is_the_first_five_rows (df : list MergedRecord) :
  EvaluateReport.take5 df = firstn 5 df /\
  List.length (EvaluateReport.take5 df) = Nat.min 5 (List.length df) /\
  EvaluateReport.take5 (EvaluateReport.take5 df) = EvaluateReport.take5 df.
Proof.
  split; [apply take5_firstn|]. split.
  - rewrite take5_firstn. apply length_firstn.
  - rewrite !take5_firstn, firstn_firstn. reflexivity.
Qed.

Section Linspace.

Lemma seq_snoc (m : nat) : seq 0 (S m) = seq 0 m ++ [m].
Proof. rewrite seq_S. reflexivity. Qed.

Lemma floor_of_scaled (i stop div : Z) :
  (0 < div)%Z ->
  Qfloor (inject_Z i * (inject_Z stop / inject_Z div)) = (i * stop / div)%Z.
Proof.
  intros Hd. rewrite Zdiv_Qdiv. apply Qfloor_comp.
  rewrite inject_Z_mult. field.
  intros C. apply (proj1 (inject_Z_injective div 0)) in C. lia.
Qed.

(** [linspace_int] rounds [i * stop / (num - 1)] down, for every position
    [i], the last one included. *)
Lemma linspace_int_div (stop : Z) (m : nat) :
  (0 < m)%nat ->
  EvaluateReport.linspace_int stop (S m)
  = map (fun i => (Z.of_nat i * stop / Z.of_nat m)%Z) (seq 0 (S m)).
Proof.
  intros Hm. unfold EvaluateReport.linspace_int.
  replace (Z.of_nat (S m) - 1)%Z with (Z.of_nat m) by lia.
  rewrite seq_snoc, !map_app. cbn [map]. rewrite removelast_last.
  rewrite map_map. cbn [map]. f_equal.
  - apply map_ext. intros i. apply floor_of_scaled. lia.
  - f_equal. rewrite Qfloor_Z. rewrite Z.mul_comm, Z.div_mul; [reflexivity | lia].
Qed.

Lemma indices_sample (n : nat) :
  EvaluateReport.indices n
  = map (fun k => Z.of_nat (sample_index n k)) (seq 0 (Nat.min 20 n)).
Proof.
  unfold EvaluateReport.indices, sample_index.
  destruct (Nat.ltb_spec 1 n) as [H|H].
  - assert (M : exists m, Nat.min 20 n = S m /\ (0 < m)%nat).
    { exists (Nat.min 20 n - 1)%nat. lia. }
    destruct M as (m & Em & Hm). rewrite Em.
    rewrite linspace_int_div by exact Hm.
    apply map_ext. intros k.
    replace (S m - 1)%nat with m by lia.
    rewrite Nat2Z.inj_div, Nat2Z.inj_mul, Nat2Z.inj_sub by lia. reflexivity.
  - destruct (Nat.eqb_spec n 1) as [->|H1]; [reflexivity|].
    assert (n = 0%nat) by lia. subst n. reflexivity.
Qed.

Lemma sample_index_bound (n k : nat) :
  (0 < n)%nat -> (k < Nat.min 20 n)%nat -> (sample_index n k < n)%nat.
Proof.
  intros Hn Hk. unfold sample_index.
  destruct (Nat.eq_dec (Nat.min 20 n - 1) 0) as [E|E].
  - rewrite E. simpl. lia.
  - apply Nat.Div0.div_lt_upper_bound.
    assert (k <= Nat.min 20 n - 1)%nat by lia.
    assert (Nat.min 20 n - 1 <= n - 1)%nat by lia.
    nia.
Qed.

Lemma sample_index_step (n k : nat) :
  (S k < Nat.min 20 n)%nat -> (sample_index n k < sample_index n (S k))%nat.
Proof.
  intros Hk. unfold sample_index.
  set (d := (Nat.min 20 n - 1)%nat). set (s := (n - 1)%nat).
  assert (Hd : (0 < d)%nat) by (unfold d; lia).
  assert (Hs : (d <= s)%nat) by (unfold d, s; lia).
  apply Nat.lt_le_trans with ((k * s + d) / d)%nat.
  - replace (k * s + d)%nat with (k * s + 1 * d)%nat by lia.
    rewrite Nat.div_add by lia. lia.
  - apply Nat.Div0.div_le_mono. lia.
Qed.

Lemma sample_index_ends (n : nat) :
  sample_index n 0 = 0%nat /\
  sample_index n (Nat.min 20 n - 1) = (n - 1)%nat.
Proof.
  unfold sample_index. split.
  - simpl. apply Nat.Div0.div_0_l.
  - destruct (Nat.eq_dec (Nat.min 20 n - 1) 0) as [E|E].
    + rewrite E. simpl. lia.
    + rewrite Nat.mul_comm. now apply Nat.div_mul.
Qed.

Lemma sample_index_small (n k : nat) :
  (n <= 20)%nat -> (k < n)%nat -> sample_index n k = k.
Proof.
  intros Hn Hk. unfold sample_index. rewrite Nat.min_r by exact Hn.
  destruct (Nat.eq_dec (n - 1) 0) as [E|E].
  - rewrite E. simpl. lia.
  - now apply Nat.div_mul.
Qed.

End Linspace.

Lemma pr_table_sample (c : Sklearn.Curve) :
  EvaluateReport.pr_table c
  = map (fun k => curve_point c (sample_index (List.length (Sklearn.thresholds c)) k))
        (seq 0 (Nat.min 20 (List.length (Sklearn.thresholds c)))).
Proof.
  unfold EvaluateReport.pr_table. cbv zeta.
  set (n := List.length (Sklearn.thresholds c)).
  rewrite indices_sample.
  rewrite forallb_filter_id.
  - rewrite map_map. apply map_ext. intros k. unfold curve_point.
    now rewrite Nat2Z.id.
  - apply forallb_forall. intros i Hi. apply in_map_iff in Hi.
    destruct Hi as (k & <- & Hk). apply in_seq in Hk.
    apply Z.ltb_lt. apply Nat2Z.inj_lt.
    apply sample_index_bound; lia.
Qed.

(** X18. The curve table of the report.  It has min(20, n) rows for a
    curve of n thresholds; row [k] is the point of the curve at position
    [k * (n - 1) / (rows - 1)] rounded down; these positions increase
    strictly and stay below n, so the guard [i < len(thresh)] never drops
    a row and no point is listed twice; the first row is the first point
    and the last row the last point. *)
Theorem X18_pr_table_rows (c : Sklearn.Curve) :
  let n := List.length (Sklearn.thresholds c) in
  let rows := Nat.min 20 n in
  EvaluateReport.pr_table c
  = map (fun k => curve_point c (sample_index n k)) (seq 0 rows) /\
  List.length (EvaluateReport.pr_table c) = rows /\
  (forall k, (S k < rows)%nat ->
             (sample_index n k < sample_index n (S k) < n)%nat) /\
  sample_index n 0 = 0%nat /\
  sample_index n (rows - 1) = (n - 1)%nat.
Proof.
  cbv zeta. split; [apply pr_table_sample|]. split.
  - rewrite pr_table_sample, length_map, length_seq. reflexivity.
  - split; [|apply sample_index_ends].
    intros k Hk. split; [now apply sample_index_step|].
    apply sample_index_bound; lia.
Qed.

(** X19. When the curve has at most 20 thresholds the curve table lists
    every point of the curve except the final one, in order. *)
Theorem X19_pr_table_of_a_short_curve (c : Sklearn.Curve) :
  (List.length (Sklearn.thresholds c) <= 20)%nat ->
  EvaluateReport.pr_table c
  = map (curve_point c) (seq 0 (List.length (Sklearn.thresholds c))).
Proof.
  intros Hn. rewrite pr_table_sample, Nat.min_r by exact Hn.
  apply map_ext_in. intros k Hk. apply in_seq in Hk.
  rewrite sample_index_small; [reflexivity | exact Hn | lia].
Qed.

Lemma X19_witness :
  exists c, EvaluateSmall.pr_curve tie_records = Some c /\
            EvaluateReport.pr_table c
            = map (curve_point c) (seq 0 (List.length (Sklearn.thresholds c))).
Proof.
  eexists. split; [vm_compute; reflexivity|].
  apply X19_pr_table_of_a_short_curve. vm_compute. lia.
Defined.

(** ** More on the stratifier *)

Section QuantileFacts.

Lemma insert_sorted_perm (x : Q) (l : list Q) :
  Permutation (Pandas.insert_sorted x l) (x :: l).
Proof.
  induction l as [|y l IH]; simpl; [reflexivity|].
  destruct (Qle_bool x y); [reflexivity|].
  rewrite IH. apply perm_swap.
Qed.

Lemma sort_values_perm (l : list Q) : Permutation (Pandas.sort_values l) l.
Proof.
  unfold Pandas.sort_values. induction l as [|x l IH]; simpl; [reflexivity|].
  now rewrite insert_sorted_perm, IH.
Qed.

Lemma half_cases (n : nat) :
  (n mod 2 = 0 \/ n mod 2 = 1)%nat /\ (n / 2 + n mod 2 <= n)%nat.
Proof.
  pose proof (Nat.mod_upper_bound n 2 ltac:(lia)).
  pose proof (Nat.div_mod_eq n 2). split; lia.
Qed.

(** The median lies between any two bounds of the values. *)
Lemma quantile_half_bounds (xs : list Q) (lo hi : Q) :
  xs <> [] -> (forall x, In x xs -> lo <= x <= hi) ->
  lo <= Pandas.quantile_half xs <= hi.
Proof.
  intros Hne Hb. unfold Pandas.quantile_half. cbv zeta.
  set (a := Pandas.sort_values xs).
  assert (La : List.length a = List.length xs).
  { apply Permutation_length, sort_values_perm. }
  assert (Lx : (0 < List.length xs)%nat) by (destruct xs; [easy | simpl; lia]).
  assert (Ha : forall i, (i < List.length a)%nat -> lo <= nth i a 0 <= hi).
  { intros i Hi. apply Hb.
    apply (Permutation_in _ (sort_values_perm xs)). now apply nth_In. }
  set (n1 := (List.length a - 1)%nat).
  destruct (half_cases n1) as [Hm Hle].
  pose proof (Ha (n1 / 2)%nat ltac:(unfold n1 in *; lia)) as [L1 H1].
  pose proof (Ha (n1 / 2 + n1 mod 2)%nat ltac:(unfold n1 in *; lia)) as [L2 H2].
  destruct Hm as [E|E]; rewrite E in *; simpl inject_Z.
  - change (inject_Z 0 / 2) with (0 / 2). split.
    + setoid_replace (0 / 2) with 0 by reflexivity. lra.
    + setoid_replace (0 / 2) with 0 by reflexivity. lra.
  - setoid_replace (1 / 2) with (1 # 2) by reflexivity. split; lra.
Qed.

End QuantileFacts.

Section StratifierMore.

Lemma adaptive_thresholds_cases (merged : list MergedRecord) :
  EvaluateSmall.adaptive_thresholds merged
  = if Qle_bool (fst (median_cutoffs merged)) (snd (median_cutoffs merged)) then
      match Numpy.mean (map m_score merged), Numpy.min (map m_score merged) with
      | Some mu, Some mn =>
          Some (py_max 0.01 (mu + 1e-6), py_min 0.01 (py_max 0 mn))
      | _, _ => None
      end
    else Some (median_cutoffs merged).
Proof. reflexivity. Qed.

Lemma py_min_max_range (mn : Q) : 0 <= py_min 0.01 (py_max 0 mn) <= 0.01.
Proof.
  unfold py_min, py_max.
  destruct (Numpy.Qltb 0 mn) eqn:E0;
    [apply Qltb_lt in E0 | apply Qltb_ge in E0];
    match goal with
    | |- context [Numpy.Qltb ?a ?b] =>
        destruct (Numpy.Qltb a b) eqn:E1;
        [apply Qltb_lt in E1 | apply Qltb_ge in E1]
    end; lra.
Qed.

Lemma py_max_ge (a b : Q) : a <= py_max a b /\ b <= py_max a b.
Proof.
  unfold py_max. destruct (Numpy.Qltb a b) eqn:E;
    [apply Qltb_lt in E | apply Qltb_ge in E]; lra.
Qed.

Lemma NoDup_map_inj (A B : Type) (f : A -> B) (l : list A) (x y : A) :
  NoDup (map f l) -> In x l -> In y l -> f x = f y -> x = y.
Proof.
  induction l as [|z l IH]; [easy|]. simpl. intros Hn Hx Hy E.
  inversion Hn as [|? ? Hz Hn']; subst.
  destruct Hx as [->|Hx], Hy as [->|Hy]; try reflexivity.
  - exfalso. apply Hz. rewrite E. now apply in_map.
  - exfalso. apply Hz. rewrite <- E. now apply in_map.
  - now apply IH.
Qed.

Lemma genuine_fp_of_gold_neg (merged : list MergedRecord) :
  genuine_fp merged = filter (fun r => Numpy.Qltb 0 (m_score r)) (gold_neg merged).
Proof.
  unfold genuine_fp, gold_neg. induction merged as [|r l IH]; [reflexivity|].
  simpl. destruct (m_label r); simpl; [exact IH|].
  destruct (Numpy.Qltb 0 (m_score r)); now rewrite IH.
Qed.

Lemma fp_bucket_unfold (merged : list MergedRecord) :
  EvaluateSmall.fp_bucket merged
  = if (List.length (genuine_fp merged) <? 5)%nat then
      firstn 5
        (genuine_fp merged
         ++ map EvaluateSmall.nominal_score
              (firstn (5 - List.length (genuine_fp merged))
                 (filter (fun r => negb (existsb (Pandas.key_eqb (m_key r))
                                                 (map m_key (genuine_fp merged))))
                         (gold_neg merged))))
    else genuine_fp merged.
Proof. reflexivity. Qed.

Lemma in_fp_keys (merged : list MergedRecord) (r : MergedRecord) :
  In r (genuine_fp merged) ->
  existsb (Pandas.key_eqb (m_key r)) (map m_key (genuine_fp merged)) = true.
Proof.
  intros H. apply existsb_exists. exists (m_key r).
  split; [now apply in_map | apply key_eqb_refl].
Qed.

Lemma fp_bucket_origin (merged : list MergedRecord) (x : MergedRecord) :
  In x (EvaluateSmall.fp_bucket merged) -> fp_row_origin merged x.
Proof.
  rewrite fp_bucket_unfold. unfold fp_row_origin.
  destruct (Nat.ltb_spec (List.length (genuine_fp merged)) 5) as [L|L];
    [|now left].
  intros H. apply in_firstn in H. apply in_app_or in H.
  destruct H as [H|H]; [now left|]. right. split; [exact L|].
  apply in_map_iff in H. destruct H as (r & <- & Hr).
  apply in_firstn in Hr. apply filter_In in Hr. destruct Hr as [Hg Hk].
  unfold gold_neg in Hg. apply filter_In in Hg. destruct Hg as [Hm Hl].
  apply negb_true_iff in Hl, Hk.
  exists r. repeat split; try assumption.
  apply Qltb_ge. destruct (Numpy.Qltb 0 (m_score r)) eqn:E; [|reflexivity].
  exfalso.
  assert (I : In r (genuine_fp merged)).
  { unfold genuine_fp. apply filter_In. split; [exact Hm|].
    now rewrite Hl, E. }
  apply in_fp_keys in I. congruence.
Qed.

Lemma genuine_fp_in_bucket (merged : list MergedRecord) (r : MergedRecord) :
  In r (genuine_fp merged) -> In r (EvaluateSmall.fp_bucket merged).
Proof.
  intros H. rewrite fp_bucket_unfold.
  destruct (Nat.ltb_spec (List.length (genuine_fp merged)) 5) as [L|L];
    [|exact H].
  rewrite firstn_app, firstn_all2 by lia.
  apply in_or_app. now left.
Qed.

End StratifierMore.

(** X20. The median cut-offs lie within the range of the scores: when
    both classes have records and every score is between [lo] and [hi],
    so are the median of the positive scores and the median of the
    negative scores. *)
Theorem X20_median_cutoffs_within_score_range
        (merged : list MergedRecord) (lo hi : Q) :
  (forall r, In r merged -> lo <= m_score r <= hi) ->
  filter m_label merged <> [] ->
  gold_neg merged <> [] ->
  lo <= fst (median_cutoffs merged) <= hi /\
  lo <= snd (median_cutoffs merged) <= hi.
Proof.
  intros Hb Hp Hn. unfold median_cutoffs. cbv zeta. cbn [fst snd].
  assert (B : forall f, filter f merged <> [] ->
                        lo <= Pandas.quantile_half (map m_score (filter f merged)) <= hi).
  { intros f Hf. apply quantile_half_bounds.
    - intros E. apply map_eq_nil in E. contradiction.
    - intros x Hx. apply in_map_iff in Hx. destruct Hx as (r & <- & Hr).
      apply filter_In in Hr. now apply Hb. }
  split.
  - destruct (map m_score (filter m_label merged)) as [|x l] eqn:E.
    + apply map_eq_nil in E. contradiction.
    + rewrite <- E. now apply B.
  - unfold gold_neg in Hn.
    destruct (map m_score (filter (fun r => negb (m_label r)) merged)) as [|x l] eqn:E.
    + apply map_eq_nil in E. contradiction.
    + rewrite <- E. now apply B.
Qed.

Lemma X20_witness :
  0 <= fst (median_cutoffs five_negatives) <= 1 /\
  0 <= snd (median_cutoffs five_negatives) <= 1.
Proof.
  apply (@X20_median_cutoffs_within_score_range five_negatives 0 1).
  - intros r Hr. simpl in Hr.
    repeat (destruct Hr as [<-|Hr]; [split; unfold Qle; simpl; lia|]).
    destruct Hr.
  - discriminate.
  - discriminate.
Defined.

(** X21. The two ways the stratifier's cut-offs come out: either the
    medians (or class constants) are kept, and then the high one was
    already above the low one; or they were not separated and the
    recomputed cut-offs lie on either side of 0.01, the low one in
    [0, 0.01] and the high one at least 0.01. *)
Theorem X21_cutoffs_kept_or_around_one_hundredth
        (merged : list MergedRecord) (high low : Q) :
  EvaluateSmall.adaptive_thresholds merged = Some (high, low) ->
  ((high, low) = median_cutoffs merged /\ low < high) \/
  (fst (median_cutoffs merged) <= snd (median_cutoffs merged) /\
   0 <= low <= 0.01 /\ 0.01 <= high).
Proof.
  rewrite adaptive_thresholds_cases.
  destruct (Qle_bool _ _) eqn:E.
  - apply Qle_bool_iff in E.
    destruct (Numpy.mean _) as [mu|]; [|discriminate].
    destruct (Numpy.min _) as [mn|]; [|discriminate].
    intros H. injection H as <- <-. right. split; [exact E|].
    split; [apply py_min_max_range | apply py_max_ge].
  - intros H.
    assert (M : median_cutoffs merged = (high, low)) by congruence.
    clear H. rewrite M in E. simpl in E.
    left. split; [now rewrite M|].
    apply Qnot_le_lt. intros C. apply Qle_bool_iff in C. congruence.
Qed.

Lemma X21_witness :
  exists high low,
    EvaluateSmall.adaptive_thresholds flat_records = Some (high, low) /\
    (((high, low) = median_cutoffs flat_records /\ low < high) \/
     (fst (median_cutoffs flat_records) <= snd (median_cutoffs flat_records) /\
      0 <= low <= 0.01 /\ 0.01 <= high)).
Proof.
  eexists. eexists. split; [vm_compute; reflexivity|].
  apply (@X21_cutoffs_kept_or_around_one_hundredth flat_records).
  vm_compute. reflexivity.
Defined.

(** X22. Padding never displaces a real false positive: every negative
    record with a positive score is in the false-positive bucket, and
    every row of the bucket is such a record or, when fewer than five
    exist, the padding row made of a negative record whose score is not
    positive. *)
Theorem X22_fp_bucket_rows (merged : list MergedRecord) :
  (forall r, In r merged -> m_label r = false -> 0 < m_score r ->
             In r (EvaluateSmall.fp_bucket merged)) /\
  (forall x, In x (EvaluateSmall.fp_bucket merged) -> fp_row_origin merged x).
Proof.
  split.
  - intros r Hr Hl Hs. apply genuine_fp_in_bucket.
    unfold genuine_fp. apply filter_In. split; [exact Hr|].
    rewrite Hl. simpl. now apply Qltb_lt.
  - apply fp_bucket_origin.
Qed.

Section StratifierNonneg.

Lemma list_upper_bound (l : list Q) : exists hi, forall x, In x l -> x <= hi.
Proof.
  induction l as [|y l [hi H]]; [exists 0; easy|].
  exists (py_max y hi). intros x [<-|Hx].
  - apply py_max_ge.
  - apply Qle_trans with hi; [now apply H | apply py_max_ge].
Qed.

Lemma quantile_half_lower (xs : list Q) (lo : Q) :
  xs <> [] -> (forall x, In x xs -> lo <= x) -> lo <= Pandas.quantile_half xs.
Proof.
  intros Hne Hlo. destruct (list_upper_bound xs) as [hi Hhi].
  apply (@quantile_half_bounds xs lo hi Hne). intros x Hx. split; auto.
Qed.

(** With scores that are not negative the low cut-off is not negative. *)
Lemma low_cutoff_nonneg (merged : list MergedRecord) (high low : Q) :
  (forall r, In r merged -> 0 <= m_score r) ->
  EvaluateSmall.adaptive_thresholds merged = Some (high, low) -> 0 <= low.
Proof.
  intros Hs. rewrite adaptive_thresholds_cases.
  destruct (Qle_bool _ _).
  - destruct (Numpy.mean _) as [mu|]; [|discriminate].
    destruct (Numpy.min _) as [mn|]; [|discriminate].
    intros H. injection H as _ <-. apply py_min_max_range.
  - intros H. assert (M : median_cutoffs merged = (high, low)) by congruence.
    apply (f_equal snd) in M. simpl in M. rewrite <- M. clear M H.
    destruct (map m_score (filter _ merged)) as [|x l] eqn:E; [lra|].
    rewrite <- E. apply quantile_half_lower; [rewrite E; easy|].
    intros y Hy. apply in_map_iff in Hy. destruct Hy as (r & <- & Hr).
    apply filter_In in Hr. now apply Hs.
Qed.

Lemma nominal_score_positive (r : MergedRecord) :
  0 <= m_score r -> m_score r <= 0 ->
  0 < m_score (EvaluateSmall.nominal_score r).
Proof.
  intros H0 H1. unfold EvaluateSmall.nominal_score. cbn [m_score].
  assert (E : m_score r == 0) by lra.
  apply Qeq_eq_bool in E. rewrite E. reflexivity.
Qed.

(** Under distinct keys a negative record is excluded from the padding
    exactly when its score is positive. *)
Lemma padding_candidates (merged : list MergedRecord) :
  NoDup (map m_key (gold_neg merged)) ->
  filter (fun r => negb (existsb (Pandas.key_eqb (m_key r))
                                 (map m_key (genuine_fp merged))))
         (gold_neg merged)
  = filter (fun r => negb (Numpy.Qltb 0 (m_score r))) (gold_neg merged).
Proof.
  intros Hn. apply filter_all. intros r Hr. f_equal.
  destruct (Numpy.Qltb 0 (m_score r)) eqn:E.
  - apply in_fp_keys. rewrite genuine_fp_of_gold_neg.
    apply filter_In. now split.
  - destruct (existsb _ _) eqn:X; [|reflexivity]. exfalso.
    apply existsb_exists in X. destruct X as (k & Hk & Ek).
    apply key_eqb_eq in Ek. apply in_map_iff in Hk.
    destruct Hk as (r' & Hk' & Hr').
    rewrite genuine_fp_of_gold_neg in Hr'. apply filter_In in Hr'.
    destruct Hr' as [Hg' Hs'].
    assert (r = r').
    { apply (@NoDup_map_inj _ _ m_key (gold_neg merged) r r' Hn Hr Hg').
      congruence. }
    subst r'. congruence.
Qed.

End StratifierNonneg.

(** X23. When no score is negative, every row of the false-positive
    bucket shows a positive score (real or the nominal 1e-6), and every
    negative record is in the false-positive or in the true-negative
    bucket. *)
Theorem X23_negatives_covered_when_scores_nonnegative (merged : list MergedRecord) :
  (forall r, In r merged -> 0 <= m_score r) ->
  exists b, EvaluateSmall.stratify merged = Some b /\
            (forall x, In x (EvaluateSmall.fp b) -> 0 < m_score x) /\
            (forall r, In r merged -> m_label r = false ->
                       In r (EvaluateSmall.fp b) \/ In r (EvaluateSmall.tn b)).
Proof.
  intros Hs. unfold EvaluateSmall.stratify.
  destruct (adaptive_thresholds_separated merged) as (high & low & Ha & _).
  pose proof (@low_cutoff_nonneg merged high low Hs Ha) as Hlow.
  rewrite Ha. eexists. split; [reflexivity|].
  cbn [EvaluateSmall.fp EvaluateSmall.tn]. split.
  - intros x Hx. apply fp_bucket_origin in Hx.
    destruct Hx as [Hx|(_ & r & Hr & _ & Hle & ->)].
    + apply filter_In in Hx. destruct Hx as [_ Hx].
      apply andb_true_iff in Hx. now apply Qltb_lt.
    + apply nominal_score_positive; [now apply Hs | exact Hle].
  - intros r Hr Hl.
    destruct (Numpy.Qltb 0 (m_score r)) eqn:E.
    + left. apply genuine_fp_in_bucket. apply filter_In.
      split; [exact Hr | now rewrite Hl, E].
    + right. apply filter_In. split; [exact Hr|]. rewrite Hl. simpl.
      apply Qle_bool_iff. apply Qltb_ge in E. lra.
Qed.

Lemma X23_witness :
  exists b, EvaluateSmall.stratify five_negatives = Some b /\
            (forall x, In x (EvaluateSmall.fp b) -> 0 < m_score x) /\
            (forall r, In r five_negatives -> m_label r = false ->
                       In r (EvaluateSmall.fp b) \/ In r (EvaluateSmall.tn b)).
Proof.
  apply (@X23_negatives_covered_when_scores_nonnegative five_negatives).
  intros r Hr. simpl in Hr.
  repeat (destruct Hr as [<-|Hr]; [unfold Qle; simpl; lia|]). destruct Hr.
Defined.

(** X24. When the negative records have pairwise distinct keys, the
    false-positive category of the report shows exactly min(5, number of
    negative records) examples: padding fills it up whenever enough
    negative records exist. *)
Theorem X24_fp_examples_count (merged : list MergedRecord) :
  NoDup (map m_key (gold_neg merged)) ->
  List.length (EvaluateReport.take5 (EvaluateSmall.fp_bucket merged))
  = Nat.min 5 (List.length (gold_neg merged)).
Proof.
  intros Hn. rewrite take5_firstn, length_firstn, fp_bucket_unfold.
  pose proof (filter_length (fun r => Numpy.Qltb 0 (m_score r)) (gold_neg merged)) as F.
  rewrite <- genuine_fp_of_gold_neg in F.
  destruct (Nat.ltb_spec (List.length (genuine_fp merged)) 5) as [L|L]; [|lia].
  rewrite length_firstn, length_app, length_map, length_firstn.
  rewrite padding_candidates by exact Hn. lia.
Qed.

Lemma X24_witness :
  List.length (EvaluateReport.take5 (EvaluateSmall.fp_bucket five_negatives))
  = Nat.min 5 (List.length (gold_neg five_negatives)).
Proof.
  apply (@X24_fp_examples_count five_negatives).
  vm_compute. repeat constructor; simpl; intuition discriminate.
Defined.

(** ** The loader's whitespace fallback *)

Section SplitFacts.

Lemma trimmed_strip (t : str) : trimmed t -> strip t = t.
Proof.
  intros [Hh Hl]. unfold strip.
  assert (L : lstrip t = t).
  { destruct t as [|c u]; [reflexivity|]. simpl.
    now rewrite (Hh c u eq_refl). }
  rewrite L. unfold rstrip.
  destruct (rev t) as [|c u] eqn:E.
  - apply (f_equal (@rev N)) in E. rewrite rev_involutive in E. now rewrite E.
  - assert (Et : t = rev u ++ [c]).
    { apply (f_equal (@rev N)) in E. now rewrite rev_involutive in E. }
    simpl. rewrite (Hl (rev u) c Et). simpl. now rewrite Et.
Qed.

Lemma no_space_rev (s : str) : no_space s -> no_space (rev s).
Proof. intros H c Hc. apply H. now apply in_rev. Qed.

(** The fields of [split] are not empty and contain no whitespace. *)
Lemma split_from_fields (s : str) :
  forall cur, no_space cur ->
    forall f, In f (EvaluateLoad.split_from cur s) -> f <> [] /\ no_space f.
Proof.
  induction s as [|c s IH]; intros cur Hcur f; simpl.
  - destruct cur as [|x cur]; [easy|].
    intros [<-|[]]. split; [|now apply no_space_rev].
    intros E. apply (f_equal (@List.length _)) in E.
    rewrite length_rev in E. discriminate.
  - destruct (isspace c) eqn:Ec.
    + destruct cur as [|x cur]; [now apply IH|].
      intros [<-|H]; [|now apply (IH [])].
      split; [|now apply no_space_rev].
      intros E. apply (f_equal (@List.length _)) in E.
      rewrite length_rev in E. discriminate.
    + apply IH. intros y [<-|Hy]; [exact Ec | now apply Hcur].
Qed.

Lemma split_fields (s : str) (f : str) :
  In f (EvaluateLoad.split s) -> f <> [] /\ no_space f.
Proof. apply split_from_fields. easy. Qed.

Lemma split_from_trailing (w : str) :
  all_space w ->
  forall cur, EvaluateLoad.split_from cur w = EvaluateLoad.split_from cur [].
Proof.
  unfold all_space. induction w as [|c w IH]; intros Hw cur; [reflexivity|].
  simpl in Hw. apply andb_true_iff in Hw. destruct Hw as [Hc Hw].
  simpl. rewrite Hc. destruct cur; now rewrite (IH Hw []).
Qed.

Lemma split_from_app_space (s w : str) :
  all_space w ->
  forall cur, EvaluateLoad.split_from cur (s ++ w) = EvaluateLoad.split_from cur s.
Proof.
  intros Hw. induction s as [|c s IH]; intros cur.
  - simpl. now apply split_from_trailing.
  - simpl. destruct (isspace c); [destruct cur|]; now rewrite ?IH.
Qed.

Lemma split_leading (w s : str) :
  all_space w -> EvaluateLoad.split (w ++ s) = EvaluateLoad.split s.
Proof.
  unfold all_space, EvaluateLoad.split.
  induction w as [|c w IH]; intros Hw; [reflexivity|].
  simpl in Hw. apply andb_true_iff in Hw. destruct Hw as [Hc Hw].
  simpl. rewrite Hc. now apply IH.
Qed.

Lemma join_nonempty_trimmed (l : list str) :
  l <> [] -> (forall f, In f l -> f <> [] /\ no_space f) ->
  EvaluateLoad.join EvaluateLoad.space l <> [] /\
  trimmed (EvaluateLoad.join EvaluateLoad.space l).
Proof.
  induction l as [|x l IH]; [easy|]. intros _ Hf.
  destruct (Hf x (or_introl eq_refl)) as [Hx Hsx].
  destruct l as [|y l].
  - simpl. split; [exact Hx|]. split.
    + intros c u E. apply Hsx. rewrite E. now left.
    + intros u c E. apply Hsx. rewrite E. apply in_or_app. right. now left.
  - destruct (IH ltac:(easy) (fun f Hin => Hf f (or_intror Hin))) as [Hj [_ Hl]].
    change (EvaluateLoad.join EvaluateLoad.space (x :: y :: l))
      with (x ++ EvaluateLoad.space ++ EvaluateLoad.join EvaluateLoad.space (y :: l)).
    set (j := EvaluateLoad.join EvaluateLoad.space (y :: l)) in *.
    split; [destruct x; [easy | discriminate]|]. split.
    + intros c u E. destruct x as [|c' x']; [easy|].
      simpl in E. injection E as <- _. apply Hsx. now left.
    + intros u c E.
      destruct (@exists_last _ j Hj) as (v & c' & Ej).
      rewrite Ej in E. rewrite !app_assoc in E.
      apply app_inj_tail in E. destruct E as [_ <-].
      now apply (Hl v c').
Qed.

End SplitFacts.

Section FallbackFacts.

Variable float : str -> option EvaluateLoad.PyFloat.

Lemma in_removelast (A : Type) (l : list A) (x : A) :
  In x (removelast l) -> In x l.
Proof.
  induction l as [|y [|z l] IH]; simpl; [easy | easy|].
  intros [->|H]; [now left | right; now apply IH].
Qed.

Lemma parse_line_row (line a b : str) (sc : EvaluateLoad.PyFloat) :
  EvaluateLoad.parse_line float line = Some (a, b, sc) ->
  a <> [] /\ no_space a /\ b <> [] /\ trimmed b.
Proof.
  unfold EvaluateLoad.parse_line. cbv zeta.
  set (parts := EvaluateLoad.split (strip line)).
  destruct (Nat.leb_spec 3 (List.length parts)) as [L|L]; [|discriminate].
  destruct (float _) as [s|]; [|discriminate].
  intros H. injection H as <- <- _.
  assert (F : forall f, In f parts -> f <> [] /\ no_space f)
    by (intros f; apply split_fields).
  destruct parts as [|p0 [|p1 [|p2 rest]]]; simpl in L; try lia.
  destruct (F p0 (or_introl eq_refl)) as [H0 S0].
  split; [exact H0|]. split; [exact S0|].
  apply join_nonempty_trimmed.
  - simpl. destruct rest; easy.
  - intros f Hf. apply F. right. cbn [tl] in Hf. now apply in_removelast.
Qed.

Lemma parse_lines_rows (lines : list str) (a b : str) (sc : EvaluateLoad.PyFloat) :
  In (a, b, sc) (EvaluateLoad.parse_lines float lines) ->
  exists line, In line lines /\
               EvaluateLoad.parse_line float line = Some (a, b, sc).
Proof.
  induction lines as [|l lines IH]; simpl; [easy|].
  destruct (EvaluateLoad.parse_line float l) as [r|] eqn:E.
  - intros [->|H].
    + exists l. split; [now left | exact E].
    + destruct (IH H) as (l' & Hl' & E'). exists l'. split; [now right | exact E'].
  - intros H. destruct (IH H) as (l' & Hl' & E'). exists l'.
    split; [now right | exact E'].
Qed.

Lemma parse_lines_length (lines : list str) :
  (List.length (EvaluateLoad.parse_lines float lines) <= List.length lines)%nat.
Proof.
  induction lines as [|l lines IH]; simpl; [lia|].
  destruct (EvaluateLoad.parse_line float l); simpl; lia.
Qed.

Lemma parse_lines_nil (lines : list str) :
  EvaluateLoad.parse_lines float lines = [] <->
  forall line, In line lines -> EvaluateLoad.parse_line float line = None.
Proof.
  induction lines as [|l lines IH]; simpl; [easy|].
  destruct (EvaluateLoad.parse_line float l) as [r|] eqn:E.
  - split; [discriminate|]. intros H. specialize (H l (or_introl eq_refl)).
    congruence.
  - rewrite IH. split.
    + intros H line [<-|Hl]; [exact E | now apply H].
    + intros H line Hl. apply H. now right.
Qed.

Lemma load_fallback_some (lines : list str) (rows : list ScoredPair) :
  EvaluateLoad.load_fallback float lines = Some rows ->
  EvaluateLoad.parse_lines float lines <> [] /\
  rows = map (fun '(a, b, sc) =>
                mkScored (mkPathRow (strip a) (strip b))
                         (match sc with
                          | EvaluateLoad.Finite q => q
                          | EvaluateLoad.NaN => 0
                          end))
             (EvaluateLoad.parse_lines float lines).
Proof.
  unfold EvaluateLoad.load_fallback.
  destruct (EvaluateLoad.parse_lines float lines) as [|r rs]; [discriminate|].
  intros H. injection H as <-. split; [easy | reflexivity].
Qed.

End FallbackFacts.

(** X25. Rows of the whitespace fallback of [load_system_output].  When it
    returns a table, the table is not empty and has at most one row per
    line; in every row [path_a] is a single field without whitespace and
    [path_b] is not empty and neither begins nor ends with whitespace. *)
Theorem X25_fallback_rows_are_well_formed
        (float : str -> option EvaluateLoad.PyFloat)
        (lines : list str) (rows : list ScoredPair) :
  EvaluateLoad.load_fallback float lines = Some rows ->
  rows <> [] /\
  (List.length rows <= List.length lines)%nat /\
  forall s, In s rows -> fallback_row_ok s.
Proof.
  intros H. apply load_fallback_some in H. destruct H as [Hne ->].
  pose proof (parse_lines_length float lines) as Hlen.
  pose proof (parse_lines_rows float lines) as Hin.
  split.
  { intros E. apply map_eq_nil in E. contradiction. }
  split; [now rewrite length_map|].
  intros s Hs. apply in_map_iff in Hs. destruct Hs as ([[a b] sc] & <- & Hr).
  destruct (Hin a b sc Hr) as (line & _ & Hp).
  apply parse_line_row in Hp. destruct Hp as (Ha & Sa & Hb & Tb).
  assert (Ta : trimmed a).
  { split.
    - intros c u E. apply Sa. rewrite E. now left.
    - intros u c E. apply Sa. rewrite E. apply in_or_app. right. now left. }
  unfold fallback_row_ok. cbn [s_paths path_a path_b].
  rewrite (trimmed_strip Ta), (trimmed_strip Tb). auto.
Qed.

Lemma X25_witness :
  exists rows,
    EvaluateLoad.load_fallback float_half [lit "  X  assoc   with Y   0.5 "; lit "x y"]
    = Some rows /\
    rows <> [] /\ (List.length rows <= 2)%nat /\
    forall s, In s rows -> fallback_row_ok s.
Proof.
  eexists. split; [vm_compute; reflexivity|].
  apply (@X25_fallback_rows_are_well_formed float_half
           [lit "  X  assoc   with Y   0.5 "; lit "x y"]).
  vm_compute. reflexivity.
Defined.

(** X26. The fallback reports a failure exactly when no line gives a row;
    a line gives no row when it has fewer than three whitespace-separated
    fields, whatever its last field is. *)
Theorem X26_fallback_fails_when_no_line_parses
        (float : str -> option EvaluateLoad.PyFloat) (lines : list str) :
  (EvaluateLoad.load_fallback float lines = None <->
   forall line, In line lines -> EvaluateLoad.parse_line float line = None) /\
  (forall line, (List.length (EvaluateLoad.split line) < 3)%nat ->
                EvaluateLoad.parse_line float line = None).
Proof.
  split.
  - rewrite <- parse_lines_nil. unfold EvaluateLoad.load_fallback.
    destruct (EvaluateLoad.parse_lines float lines); split; easy.
  - intros line H. unfold EvaluateLoad.parse_line. cbv zeta.
    destruct (strip_decomp line) as (w1 & w2 & H1 & H2 & E).
    assert (S : EvaluateLoad.split (strip line) = EvaluateLoad.split line).
    { rewrite E at 2. rewrite split_leading by exact H1.
      unfold EvaluateLoad.split. now rewrite split_from_app_space. }
    rewrite S. destruct (Nat.leb_spec 3 (List.length (EvaluateLoad.split line)));
      [lia | reflexivity].
Qed.

(** X27. Splitting ignores the whitespace around a line: the fields of the
    stripped line are the fields of the line, each of them non-empty and
    free of whitespace. *)
Theorem X27_split_ignores_outer_whitespace (s : str) :
  EvaluateLoad.split (strip s) = EvaluateLoad.split s /\
  forall f, In f (EvaluateLoad.split s) -> f <> [] /\ no_space f.
Proof.
  split; [|apply split_fields].
  destruct (strip_decomp s) as (w1 & w2 & H1 & H2 & E).
  rewrite E at 2. rewrite split_leading by exact H1.
  unfold EvaluateLoad.split. now rewrite split_from_app_space.
Qed.

